(** * ReducedMunkres: a shallow embedding of [modified_munkres.py]

    The solver object of the Python module is embedded as a record that is
    threaded through every method.  Methods that can raise in Python return
    a [result]; numpy's two-dimensional arrays are records holding their
    shape and their rows; Python lists are lists.  Cost entries are modelled
    as exact integers ([Z]). *)

From Stdlib Require Import ZArith Lia.
From stdpp Require Import base list strings sorting.

Local Open Scope Z_scope.
Local Open Scope nat_scope.

(** ** Exceptions and results *)

Inductive exn : Type :=
  | AssertionError
  | IndexError
  | TypeError
  | ValueError (msg : string).

Inductive result (A : Type) : Type :=
  | Ok (a : A)
  | Raise (e : exn).
Arguments Ok {A} _.
Arguments Raise {A} _.

#[global] Instance result_ret : MRet result := fun A a => Ok a.
#[global] Instance result_bind : MBind result :=
  fun A B f r => match r with Ok a => f a | Raise e => Raise e end.

(** What a Python method hands back: [None] or an integer. *)
Inductive retval : Type :=
  | RNone
  | RInt (k : Z).

(** ** numpy arrays of dimension two and Python lists *)

Record ndarray (A : Type) : Type := mk_ndarray {
  shape : nat * nat;
  data : list (list A)
}.
Arguments mk_ndarray {A} _ _.
Arguments shape {A} _.
Arguments data {A} _.

(** Every array numpy builds is rectangular and agrees with its shape. *)
Definition wf_ndarray {A} (a : ndarray A) : Prop :=
  length (data a) = (shape a).1 /\
  Forall (fun row => length row = (shape a).2) (data a).

(** [np.full(shape, v)] *)
Definition np_full {A} (sh : nat * nat) (v : A) : ndarray A :=
  mk_ndarray sh (replicate sh.1 (replicate sh.2 v)).

(** The cell at [(r, c)], when there is one. *)
Definition cell {A} (a : ndarray A) (r c : nat) : option A :=
  match data a !! r with
  | Some row => row !! c
  | None => None
  end.

(** [a[pos]] *)
Definition getitem {A} (a : ndarray A) (pos : nat * nat) : result A :=
  match cell a pos.1 pos.2 with
  | Some v => Ok v
  | None => Raise IndexError
  end.

(** [a[pos] = v] *)
Definition setitem {A} (a : ndarray A) (pos : nat * nat) (v : A)
  : result (ndarray A) :=
  match data a !! pos.1 with
  | Some row =>
      if decide (pos.2 < length row)
      then Ok (mk_ndarray (shape a) (<[pos.1 := <[pos.2 := v]> row]> (data a)))
      else Raise IndexError
  | None => Raise IndexError
  end.

(** [a[row, :]] *)
Definition getrow {A} (a : ndarray A) (row : nat) : result (list A) :=
  match data a !! row with
  | Some l => Ok l
  | None => Raise IndexError
  end.

(** [l[i]] and [l[i] = v] on a Python list *)
Definition list_getitem {A} (l : list A) (i : nat) : result A :=
  match l !! i with
  | Some v => Ok v
  | None => Raise IndexError
  end.

Definition list_setitem {A} (l : list A) (i : nat) (v : A) : result (list A) :=
  if decide (i < length l) then Ok (<[i := v]> l) else Raise IndexError.

(** [np.ndenumerate(a)]: pairs of an index and a value, in row-major order. *)
Fixpoint enum_row {A} (r c : nat) (l : list A) : list ((nat * nat) * A) :=
  match l with
  | [] => []
  | v :: l' => ((r, c), v) :: enum_row r (S c) l'
  end.

Fixpoint enum_rows {A} (r : nat) (ll : list (list A))
  : list ((nat * nat) * A) :=
  match ll with
  | [] => []
  | row :: ll' => enum_row r 0 row ++ enum_rows (S r) ll'
  end.

Definition ndenumerate {A} (a : ndarray A) : list ((nat * nat) * A) :=
  enum_rows 0 (data a).

(** ** The solver object *)

Record ReducedMunkres : Type := mk_ReducedMunkres {
  n : nat;
  m : nat;
  costMat : ndarray Z;
  marked : ndarray bool;
  starred : ndarray bool;
  primed : ndarray bool;
  row_covered : list bool;
  col_covered : list bool;
  independent : ndarray bool;
  z1_r : option nat;
  z1_c : option nat;
  rowResiduals : option (list Z);
  colResiduals : option (list Z)
}.

Definition set_costMat (self : ReducedMunkres) (a : ndarray Z) :=
  mk_ReducedMunkres (n self) (m self) a (marked self) (starred self)
    (primed self) (row_covered self) (col_covered self) (independent self)
    (z1_r self) (z1_c self) (rowResiduals self) (colResiduals self).

Definition set_marked (self : ReducedMunkres) (a : ndarray bool) :=
  mk_ReducedMunkres (n self) (m self) (costMat self) a (starred self)
    (primed self) (row_covered self) (col_covered self) (independent self)
    (z1_r self) (z1_c self) (rowResiduals self) (colResiduals self).

Definition set_starred (self : ReducedMunkres) (a : ndarray bool) :=
  mk_ReducedMunkres (n self) (m self) (costMat self) (marked self) a
    (primed self) (row_covered self) (col_covered self) (independent self)
    (z1_r self) (z1_c self) (rowResiduals self) (colResiduals self).

Definition set_primed (self : ReducedMunkres) (a : ndarray bool) :=
  mk_ReducedMunkres (n self) (m self) (costMat self) (marked self)
    (starred self) a (row_covered self) (col_covered self) (independent self)
    (z1_r self) (z1_c self) (rowResiduals self) (colResiduals self).

Definition set_row_covered (self : ReducedMunkres) (l : list bool) :=
  mk_ReducedMunkres (n self) (m self) (costMat self) (marked self)
    (starred self) (primed self) l (col_covered self) (independent self)
    (z1_r self) (z1_c self) (rowResiduals self) (colResiduals self).

Definition set_col_covered (self : ReducedMunkres) (l : list bool) :=
  mk_ReducedMunkres (n self) (m self) (costMat self) (marked self)
    (starred self) (primed self) (row_covered self) l (independent self)
    (z1_r self) (z1_c self) (rowResiduals self) (colResiduals self).

Definition set_z1 (self : ReducedMunkres) (r c : nat) :=
  mk_ReducedMunkres (n self) (m self) (costMat self) (marked self)
    (starred self) (primed self) (row_covered self) (col_covered self)
    (independent self) (Some r) (Some c)
    (rowResiduals self) (colResiduals self).

(** [__init__]: the fields are filled first, the precondition on the shape
    is asserted last. *)
Definition __init__ (costMat0 : ndarray Z) : result ReducedMunkres :=
  let '(n0, m0) := shape costMat0 in
  let self :=
    {| n := n0; m := m0;
       costMat := costMat0;
       marked := np_full (shape costMat0) false;
       starred := np_full (shape costMat0) false;
       primed := np_full (shape costMat0) false;
       row_covered := (fun _ => false) <$> seq 0 n0;
       col_covered := (fun _ => false) <$> seq 0 m0;
       independent := np_full (shape costMat0) false;
       z1_r := None; z1_c := None;
       rowResiduals := None; colResiduals := None |} in
  if (Z.of_nat (m self) >=? Z.of_nat (n self) - 1)%Z
  then Ok self
  else Raise AssertionError.

(** [reset]: fresh covers and a fresh prime grid. *)
Definition reset (self : ReducedMunkres) : ReducedMunkres :=
  let self := set_row_covered self ((fun _ => false) <$> seq 0 (n self)) in
  let self := set_col_covered self ((fun _ => false) <$> seq 0 (m self)) in
  set_primed self (np_full (shape (costMat self)) false).

(** [step5] only resets; it has no [return]. *)
Definition step5 (self : ReducedMunkres) : ReducedMunkres * retval :=
  (reset self, RNone).

(** [compute] is [pass]. *)
Definition compute (self : ReducedMunkres) : ReducedMunkres * retval :=
  (self, RNone).

(** ** Searching the grids *)

(** The loop shape shared by [star] and [_isIndependent]:
    [for k in range(..): if skip != k and test(k): flag = False; break]. *)
Fixpoint scan_other (skip : nat) (test : nat -> result bool)
    (idxs : list nat) (flag : bool) : result bool :=
  match idxs with
  | [] => Ok flag
  | k :: rest =>
      if negb (skip =? k) then
        b ← test k;
        if b : bool then Ok false else scan_other skip test rest flag
      else scan_other skip test rest flag
  end.

Fixpoint _findUncovZero_loop (items : list ((nat * nat) * Z))
    (row_cov col_cov : list bool) (uncov_zero : option (nat * nat))
  : result (option (nat * nat)) :=
  match items with
  | [] => Ok uncov_zero
  | (z1, value) :: rest =>
      if (value =? 0)%Z then
        cc ← list_getitem col_cov z1.2;
        if negb cc then
          rc ← list_getitem row_cov z1.1;
          if negb rc
          then _findUncovZero_loop rest row_cov col_cov (Some z1)
          else _findUncovZero_loop rest row_cov col_cov uncov_zero
        else _findUncovZero_loop rest row_cov col_cov uncov_zero
      else _findUncovZero_loop rest row_cov col_cov uncov_zero
  end.

Definition _findUncovZero (self : ReducedMunkres)
  : result (option (nat * nat)) :=
  _findUncovZero_loop (ndenumerate (costMat self))
    (row_covered self) (col_covered self) None.

(** Index of the first [True] of an enumerated row, or [-1]. *)
Fixpoint first_true (i : nat) (l : list bool) : Z :=
  match l with
  | [] => (-1)%Z
  | b :: l' => if b then Z.of_nat i else first_true (S i) l'
  end.

Definition _findStarInRow (self : ReducedMunkres) (row : nat) : result Z :=
  l ← getrow (starred self) row;
  Ok (first_true 0 l).

Definition _findPrimeInRow (self : ReducedMunkres) (row : nat) : result Z :=
  l ← getrow (primed self) row;
  Ok (first_true 0 l).

(** [a[:, col]] *)
Definition getcol {A} (a : ndarray A) (col : nat) : result (list A) :=
  if decide (col < (shape a).2)
  then Ok (omap (fun row => row !! col) (data a))
  else Raise IndexError.

Definition _findStarInCol (self : ReducedMunkres) (col : nat) : result Z :=
  l ← getcol (starred self) col;
  Ok (first_true 0 l).

Definition _isIndependent (self : ReducedMunkres) (pos : nat * nat)
  : result bool :=
  let ind := true in
  let row := pos.1 in
  let col := pos.2 in
  if (Z.of_nat row =? Z.of_nat (n self) - 1)%Z then Ok ind
  else
    ind ← scan_other col
          (fun j => v ← getitem (costMat self) (row, j); Ok (v =? 0)%Z)
          (seq 0 (m self)) ind;
    scan_other row
      (fun i => v ← getitem (costMat self) (i, col); Ok (v =? 0)%Z)
      (seq 0 (n self)) ind.

Definition star (self : ReducedMunkres) (pos : nat * nat)
  : result ReducedMunkres :=
  let canStar := true in
  let row := pos.1 in
  let col := pos.2 in
  canStar ← scan_other col (fun j => getitem (starred self) (row, j))
              (seq 0 (m self)) canStar;
  canStar ← scan_other row (fun i => getitem (starred self) (i, col))
              (seq 0 (n self)) canStar;
  if canStar : bool then
    a ← setitem (starred self) pos true;
    Ok (set_starred self a)
  else Ok self.

Definition mark (self : ReducedMunkres) (pos : nat * nat)
  : result ReducedMunkres :=
  a ← setitem (marked self) pos true;
  Ok (set_marked self a).

Definition prime (self : ReducedMunkres) (pos : nat * nat)
  : result ReducedMunkres :=
  a ← setitem (primed self) pos true;
  Ok (set_primed self a).

(** ** Step 1 *)

(** [np.min(a, axis=0)]: numpy refuses to reduce along an axis of length
    zero, the minimum having no identity. *)
Definition np_min_axis0 (a : ndarray Z) : result (list Z) :=
  match data a with
  | [] => Raise (ValueError "zero-size array to reduction operation minimum which has no identity")
  | row0 :: rest => Ok (foldl (zip_with Z.min) row0 rest)
  end.

(** [v.reshape((1, -1))] of a vector *)
Definition reshape_row (v : list Z) : ndarray Z :=
  mk_ndarray (1, length v) [v].

(** [np.repeat(a, k, axis=0)]: every row [k] times in a row. *)
Definition np_repeat_axis0 (a : ndarray Z) (k : nat) : ndarray Z :=
  mk_ndarray (k * (shape a).1, (shape a).2) (data a ≫= replicate k).

(** [a - b] for two arrays of one shape, which is all the solver subtracts
    (its [n] is the row count of its matrix). *)
Definition np_sub (a b : ndarray Z) : result (ndarray Z) :=
  if decide (shape a = shape b)
  then Ok (mk_ndarray (shape a) (zip_with (zip_with Z.sub) (data a) (data b)))
  else Raise (ValueError "operands could not be broadcast together").

Definition step1 (self : ReducedMunkres) : result (ReducedMunkres * retval) :=
  mins ← np_min_axis0 (costMat self);
  let minValues := reshape_row mins in
  let minValues := np_repeat_axis0 minValues (n self) in
  a ← np_sub (costMat self) minValues;
  Ok (set_costMat self a, RInt 2).

(** ** Step 2 *)

Fixpoint step2_loop (items : list ((nat * nat) * Z)) (self : ReducedMunkres)
  : result ReducedMunkres :=
  match items with
  | [] => Ok self
  | (pos, value) :: rest =>
      if (value =? 0)%Z then
        self' ← star self pos;
        step2_loop rest self'
      else step2_loop rest self
  end.

Definition step2 (self : ReducedMunkres) : result (ReducedMunkres * retval) :=
  self' ← step2_loop (ndenumerate (costMat self)) self;
  Ok (self', RInt 3).

(** ** Step 3 *)

(** The objects the loop of [step3] handles: what [np.ndenumerate] yields is
    a tuple of an index tuple and a value. *)
Inductive pyobj : Type :=
  | PyInt (k : nat)
  | PyBool (b : bool)
  | PyTuple (items : list pyobj).

Definition ndenumerate_obj (a : ndarray bool) : list pyobj :=
  (fun iv : (nat * nat) * bool =>
     PyTuple [PyTuple [PyInt iv.1.1; PyInt iv.1.2]; PyBool iv.2])
  <$> ndenumerate a.

(** The targets [_, col, starred] of the [for] take a sequence of exactly
    three items. *)
Definition unpack3 (o : pyobj) : result (pyobj * pyobj * pyobj) :=
  match o with
  | PyTuple [a; b; c] => Ok (a, b, c)
  | PyTuple items =>
      if decide (length items < 3)
      then Raise (ValueError "not enough values to unpack (expected 3)")
      else Raise (ValueError "too many values to unpack (expected 3)")
  | _ => Raise TypeError
  end.

Definition truthy (o : pyobj) : bool :=
  match o with
  | PyInt k => negb (k =? 0)
  | PyBool b => b
  | PyTuple items => negb (bool_decide (items = []))
  end.

(** An object used as a list index. *)
Definition as_index (o : pyobj) : result nat :=
  match o with
  | PyInt k => Ok k
  | PyBool b => Ok (if b then 1 else 0)
  | PyTuple _ => Raise TypeError
  end.

Fixpoint step3_loop (items : list pyobj) (self : ReducedMunkres)
  : result ReducedMunkres :=
  match items with
  | [] => Ok self
  | item :: rest =>
      '(_, col, starred0) ← unpack3 item;
      if truthy starred0 then
        i ← as_index col;
        cov ← list_getitem (col_covered self) i;
        if negb cov then
          l ← list_setitem (col_covered self) i true;
          step3_loop rest (set_col_covered self l)
        else Raise (ValueError "Column is already covered")
      else step3_loop rest self
  end.

Definition step3 (self : ReducedMunkres) : result (ReducedMunkres * retval) :=
  self' ← step3_loop (ndenumerate_obj (starred self)) self;
  Ok (self', RInt 4).

(** ** Step 4 *)

(** [l.index(True)] *)
Fixpoint index_true (i : nat) (l : list bool) : result nat :=
  match l with
  | [] => Raise (ValueError "True is not in list")
  | b :: l' => if b then Ok i else index_true (S i) l'
  end.

(** One turn of the [while] of [step4]: the solver, the local [step] and the
    local [done] afterwards. *)
Definition step4_body (self : ReducedMunkres) (step : Z)
  : result (ReducedMunkres * Z * bool) :=
  z1 ← _findUncovZero self;
  match z1 with
  | None => Ok (self, 6%Z, true)
  | Some z1 =>
      a ← setitem (primed self) (z1.1, z1.2) true;
      let self := set_primed self a in
      starCol ← _findStarInRow self z1.1;
      if (starCol =? -1)%Z then Ok (set_z1 self z1.1 z1.2, 5%Z, true)
      else
        l ← getrow (starred self) z1.1;
        col ← index_true 0 l;
        cc ← list_getitem (col_covered self) col;
        if negb (bool_decide (cc = true)) then Raise AssertionError else
        rc ← list_getitem (row_covered self) z1.1;
        if negb (bool_decide (rc = false)) then Raise AssertionError else
        rcov ← list_setitem (row_covered self) z1.1 true;
        let self := set_row_covered self rcov in
        ccov ← list_setitem (col_covered self) col false;
        let self := set_col_covered self ccov in
        Ok (self, step, false)
  end.

(** [while not done: ...], at most [fuel] turns; [None] when they run out. *)
Fixpoint step4_while (fuel : nat) (self : ReducedMunkres) (step : Z)
    (done : bool) : option (result (ReducedMunkres * Z)) :=
  if done then Some (Ok (self, step))
  else
    match fuel with
    | 0 => None
    | S fuel' =>
        match step4_body self step with
        | Raise e => Some (Raise e)
        | Ok (self', step', done') => step4_while fuel' self' step' done'
        end
    end.

(** Every turn that does not leave the loop covers one more row, so one turn
    more than there are rows is enough.  The local [step] is dropped: the
    function has no [return]. *)
Definition step4 (self : ReducedMunkres)
  : option (result (ReducedMunkres * retval)) :=
  match step4_while (S (length (row_covered self))) self 0%Z false with
  | None => None
  | Some (Raise e) => Some (Raise e)
  | Some (Ok (self', step)) => Some (Ok (self', RNone))
  end.

(** ** Predicates of the statements *)

(** The solver's grids agree with its [n] and [m], as [__init__] leaves
    them and every method keeps them. *)
Definition wf_state (self : ReducedMunkres) : Prop :=
  (shape (costMat self) = (n self, m self) /\ wf_ndarray (costMat self)) /\
  (shape (starred self) = (n self, m self) /\ wf_ndarray (starred self)) /\
  (shape (primed self) = (n self, m self) /\ wf_ndarray (primed self)) /\
  length (row_covered self) = n self /\
  length (col_covered self) = m self.

(** The virtual row is the last one, [n - 1]. *)
Definition is_virtual (self : ReducedMunkres) (r : nat) : Prop :=
  Z.of_nat r = (Z.of_nat (n self) - 1)%Z.

(** Row-major order on positions. *)
Definition scan_lt (p q : nat * nat) : Prop :=
  p.1 < q.1 \/ (p.1 = q.1 /\ p.2 < q.2).

Definition scan_le (p q : nat * nat) : Prop :=
  p.1 < q.1 \/ (p.1 = q.1 /\ p.2 <= q.2).

(** A zero of the cost matrix whose row and column are both uncovered. *)
Definition uncovered_zero (self : ReducedMunkres) (r c : nat) : Prop :=
  cell (costMat self) r c = Some 0%Z /\
  row_covered self !! r = Some false /\
  col_covered self !! c = Some false.

(** [v] is the least entry of column [c]. *)
Definition is_col_min (a : ndarray Z) (c : nat) (v : Z) : Prop :=
  (exists r, cell a r c = Some v) /\
  (forall r x, cell a r c = Some x -> (v <= x)%Z).

(** The positions of the zero entries, in the order [np.ndenumerate] yields
    them. *)
Definition zero_cells (a : ndarray Z) : list (nat * nat) :=
  (filter (fun iv : (nat * nat) * Z => iv.2 = 0%Z) (ndenumerate a)).*1.

(** [star] called on each position of a list in turn. *)
Fixpoint star_all (poss : list (nat * nat)) (self : ReducedMunkres)
  : result ReducedMunkres :=
  match poss with
  | [] => Ok self
  | pos :: rest => self' ← star self pos; star_all rest self'
  end.

(** No other cell of the row, and no other cell of the column, of [pos] is
    starred. *)
Definition no_other_star (self : ReducedMunkres) (pos : nat * nat) : Prop :=
  (forall j, j <> pos.2 -> cell (starred self) pos.1 j <> Some true) /\
  (forall i, i <> pos.1 -> cell (starred self) i pos.2 <> Some true).

(** No other cell of the row, and no other cell of the column, of [pos] is
    a zero of the cost matrix. *)
Definition no_other_zero (self : ReducedMunkres) (pos : nat * nat) : Prop :=
  (forall j, j <> pos.2 -> cell (costMat self) pos.1 j <> Some 0%Z) /\
  (forall i, i <> pos.1 -> cell (costMat self) i pos.2 <> Some 0%Z).

(** The star invariant with the virtual row left out: no real row holds two
    stars, and no column holds two stars in real rows. *)
Definition star_inv_real (self : ReducedMunkres) : Prop :=
  (forall r c1 c2, ~ is_virtual self r ->
     cell (starred self) r c1 = Some true ->
     cell (starred self) r c2 = Some true -> c1 = c2) /\
  (forall c r1 r2, ~ is_virtual self r1 -> ~ is_virtual self r2 ->
     cell (starred self) r1 c = Some true ->
     cell (starred self) r2 c = Some true -> r1 = r2).

(** The star invariant on every row, the virtual one included. *)
Definition star_inv_all (self : ReducedMunkres) : Prop :=
  (forall r c1 c2,
     cell (starred self) r c1 = Some true ->
     cell (starred self) r c2 = Some true -> c1 = c2) /\
  (forall c r1 r2,
     cell (starred self) r1 c = Some true ->
     cell (starred self) r2 c = Some true -> r1 = r2).

(** Whether a cell holds [True], and whether it holds a zero; [false]
    outside of the grid. *)
Definition cell_true (a : ndarray bool) (r c : nat) : bool :=
  match cell a r c with Some b => b | None => false end.

Definition cell_zero (a : ndarray Z) (r c : nat) : bool :=
  match cell a r c with Some v => (v =? 0)%Z | None => false end.

(** How many rows are still uncovered: what the [while] of [step4] uses
    up. *)
Definition count_false (l : list bool) : nat :=
  length (filter (fun b => b = false) l).

(** The matrix of the scenario of the specification: two real rows and the
    virtual row, all zero. *)
Definition scenario : ndarray Z :=
  mk_ndarray (3, 3) [[1; 2; 3]; [2; 1; 3]; [0; 0; 0]]%Z.

(** The solver [__init__] builds for it. *)
Definition scenario_solver : ReducedMunkres :=
  {| n := 3; m := 3;
     costMat := scenario;
     marked := np_full (3, 3) false;
     starred := np_full (3, 3) false;
     primed := np_full (3, 3) false;
     row_covered := [false; false; false];
     col_covered := [false; false; false];
     independent := np_full (3, 3) false;
     z1_r := None; z1_c := None;
     rowResiduals := None; colResiduals := None |}.

(** The scenario after [star] at the first cell of the virtual row. *)
Definition scenario_starred : ReducedMunkres :=
  set_starred scenario_solver
    (mk_ndarray (3, 3)
       [[false; false; false]; [false; false; false]; [true; false; false]]).

(** A reduced matrix whose real row holds two zeros. *)
Definition shared_row : ndarray Z :=
  mk_ndarray (2, 2) [[0; 0]; [1; 1]]%Z.

(** The solver of a matrix of one row and one column without a zero. *)
Definition lone_solver : ReducedMunkres :=
  {| n := 1; m := 1;
     costMat := mk_ndarray (1, 1) [[1%Z]];
     marked := np_full (1, 1) false;
     starred := np_full (1, 1) false;
     primed := np_full (1, 1) false;
     row_covered := [false];
     col_covered := [false];
     independent := np_full (1, 1) false;
     z1_r := None; z1_c := None;
     rowResiduals := None; colResiduals := None |}.

(** A matrix that is not reduced, and its solver. *)
Definition unreduced : ndarray Z :=
  mk_ndarray (2, 2) [[3; 5]; [4; 2]]%Z.

Definition unreduced_solver : ReducedMunkres :=
  {| n := 2; m := 2;
     costMat := unreduced;
     marked := np_full (2, 2) false;
     starred := np_full (2, 2) false;
     primed := np_full (2, 2) false;
     row_covered := [false; false];
     col_covered := [false; false];
     independent := np_full (2, 2) false;
     z1_r := None; z1_c := None;
     rowResiduals := None; colResiduals := None |}.

(** The scenario after [prime] at the last cell of the virtual row. *)
Definition scenario_primed : ReducedMunkres :=
  set_primed scenario_solver
    (mk_ndarray (3, 3)
       [[false; false; false]; [false; false; false]; [false; false; true]]).

(** The grid of marks agrees with [n] and [m]. *)
Definition wf_marked (self : ReducedMunkres) : Prop :=
  shape (marked self) = (n self, m self) /\ wf_ndarray (marked self).

(** A reduced matrix whose real row holds an independent zero, and its
    solver. *)
Definition diagonal : ndarray Z :=
  mk_ndarray (2, 2) [[0; 3]; [1; 0]]%Z.

Definition diagonal_solver : ReducedMunkres :=
  {| n := 2; m := 2;
     costMat := diagonal;
     marked := np_full (2, 2) false;
     starred := np_full (2, 2) false;
     primed := np_full (2, 2) false;
     row_covered := [false; false];
     col_covered := [false; false];
     independent := np_full (2, 2) false;
     z1_r := None; z1_c := None;
     rowResiduals := None; colResiduals := None |}.

(** What [step4] leaves behind when it returns: no uncovered zero, or a
    recorded Z1 that is an uncovered zero, primed, in a row without a
    star. *)
Definition step4_exhausted (self : ReducedMunkres) : Prop :=
  forall r c, ~ uncovered_zero self r c.

Definition step4_found (self : ReducedMunkres) : Prop :=
  exists r c, z1_r self = Some r /\ z1_c self = Some c /\
    uncovered_zero self r c /\
    cell (primed self) r c = Some true /\
    forall j, cell (starred self) r j <> Some true.

(** The covers step 4 relies on: no column holds two stars, and every star
    of an uncovered row sits in a covered column. *)
Definition covers_consistent (self : ReducedMunkres) : Prop :=
  (forall c r1 r2,
     cell (starred self) r1 c = Some true ->
     cell (starred self) r2 c = Some true -> r1 = r2) /\
  (forall r k,
     cell (starred self) r k = Some true ->
     row_covered self !! r = Some false ->
     col_covered self !! k = Some true).

(** What [step4] never touches, and what it only adds to: the matrix and
    the stars stay, covered rows stay covered, primes stay. *)
Definition step4_frame (self self' : ReducedMunkres) : Prop :=
  n self' = n self /\ m self' = m self /\
  costMat self' = costMat self /\ starred self' = starred self /\
  marked self' = marked self /\
  (forall i, row_covered self !! i = Some true ->
     row_covered self' !! i = Some true) /\
  (forall r c, cell (primed self) r c = Some true ->
     cell (primed self') r c = Some true).

(** An array of three columns without a row. *)
Definition no_rows : ndarray Z := mk_ndarray (0, 3) [].

(** The scenario with its first column starred and covered. *)
Definition scenario_covered : ReducedMunkres :=
  set_col_covered scenario_starred [true; false; false].

(** ** Arrays *)

Lemma fmap_const_seq {A} (v : A) (k i : nat) :
  (fun _ => v) <$> seq i k = replicate k v.
Proof.
  revert i. induction k as [|k IH]; intros i; simpl; [done|].
  by rewrite IH.
Qed.

Lemma wf_np_full {A} (sh : nat * nat) (v : A) : wf_ndarray (np_full sh v).
Proof.
  split; simpl.
  - by rewrite length_replicate.
  - apply Forall_forall. intros row Hrow.
    apply elem_of_replicate in Hrow as [-> _]. by rewrite length_replicate.
Qed.

Lemma cell_np_full {A} (sh : nat * nat) (v : A) (r c : nat) (x : A) :
  cell (np_full sh v) r c = Some x -> x = v.
Proof.
  unfold cell, np_full. simpl.
  destruct (replicate sh.1 (replicate sh.2 v) !! r) as [row|] eqn:Hr; [|done].
  apply lookup_replicate in Hr as [-> _].
  intros Hc. by apply lookup_replicate in Hc as [-> _].
Qed.

Lemma cell_Some_lt {A} (a : ndarray A) (r c : nat) (x : A) :
  wf_ndarray a -> cell a r c = Some x -> r < (shape a).1 /\ c < (shape a).2.
Proof.
  intros [Hlen Hrows]. unfold cell.
  destruct (data a !! r) as [row|] eqn:Hr; [|done].
  intros Hc. split.
  - rewrite <- Hlen. by eapply lookup_lt_Some.
  - rewrite Forall_forall in Hrows.
    rewrite <- (Hrows row); [by eapply lookup_lt_Some|].
    by eapply list_elem_of_lookup_2.
Qed.

Lemma cell_lt_Some {A} (a : ndarray A) (r c : nat) :
  wf_ndarray a -> r < (shape a).1 -> c < (shape a).2 ->
  exists x, cell a r c = Some x.
Proof.
  intros [Hlen Hrows] Hr Hc. unfold cell.
  destruct (lookup_lt_is_Some_2 (data a) r) as [row Hrow]; [lia|].
  rewrite Hrow. apply lookup_lt_is_Some_2.
  rewrite Forall_forall in Hrows. rewrite (Hrows row); [done|].
  by eapply list_elem_of_lookup_2.
Qed.

Lemma setitem_Ok {A} (a : ndarray A) (pos : nat * nat) (v : A) :
  wf_ndarray a -> pos.1 < (shape a).1 -> pos.2 < (shape a).2 ->
  exists a', setitem a pos v = Ok a'.
Proof.
  intros [Hlen Hrows] Hr Hc. unfold setitem.
  destruct (lookup_lt_is_Some_2 (data a) pos.1) as [row Hrow]; [lia|].
  rewrite Hrow. rewrite Forall_forall in Hrows.
  rewrite decide_True; [eauto|].
  rewrite (Hrows row); [done|]. by eapply list_elem_of_lookup_2.
Qed.

Lemma setitem_shape {A} (a a' : ndarray A) (pos : nat * nat) (v : A) :
  setitem a pos v = Ok a' -> shape a' = shape a.
Proof.
  unfold setitem. destruct (data a !! pos.1); [|done].
  case_decide; [|done]. by intros [= <-].
Qed.

Lemma setitem_wf {A} (a a' : ndarray A) (pos : nat * nat) (v : A) :
  wf_ndarray a -> setitem a pos v = Ok a' -> wf_ndarray a'.
Proof.
  intros [Hlen Hrows]. unfold setitem.
  destruct (data a !! pos.1) as [row|] eqn:Hrow; [|done].
  case_decide; [|done]. intros [= <-]. split; simpl.
  - by rewrite length_insert.
  - rewrite Forall_forall in Hrows. apply Forall_forall. intros row' Hin.
    apply list_elem_of_lookup in Hin as [i Hi].
    destruct (decide (i = pos.1)) as [->|Hne].
    + rewrite list_lookup_insert_eq in Hi by (by eapply lookup_lt_Some).
      injection Hi as <-. rewrite length_insert. apply Hrows.
      by eapply list_elem_of_lookup_2.
    + rewrite list_lookup_insert_ne in Hi by done.
      apply Hrows. by eapply list_elem_of_lookup_2.
Qed.

Lemma setitem_cell {A} (a a' : ndarray A) (pos : nat * nat) (v : A)
    (r c : nat) :
  setitem a pos v = Ok a' ->
  cell a' r c = if decide (r = pos.1 /\ c = pos.2) then Some v else cell a r c.
Proof.
  unfold setitem.
  destruct (data a !! pos.1) as [row|] eqn:Hrow; [|done].
  case_decide as Hc; [|done]. intros [= <-]. unfold cell. simpl.
  destruct (decide (r = pos.1)) as [->|Hr].
  - rewrite list_lookup_insert_eq by (by eapply lookup_lt_Some).
    rewrite Hrow.
    destruct (decide (c = pos.2)) as [->|Hc'].
    + rewrite decide_True by done. by rewrite list_lookup_insert_eq.
    + rewrite decide_False by tauto. by rewrite list_lookup_insert_ne.
  - rewrite decide_False by tauto. by rewrite list_lookup_insert_ne.
Qed.

(** ** The order of [np.ndenumerate] *)

Lemma elem_of_enum_row {A} (r c : nat) (l : list A) (p : nat * nat) (v : A) :
  (p, v) ∈ enum_row r c l <-> p.1 = r /\ c <= p.2 /\ l !! (p.2 - c) = Some v.
Proof.
  revert c. induction l as [|x l IH]; intros c; simpl.
  - rewrite elem_of_nil. split; [done|]. by intros (_ & _ & ?).
  - rewrite elem_of_cons, IH. destruct p as [pr pc]; simpl. split.
    + intros [[= -> -> ->]|(-> & Hle & Hl)].
      * split; [done|]. split; [lia|]. by rewrite Nat.sub_diag.
      * split; [done|]. split; [lia|].
        replace (pc - c) with (S (pc - S c)) by lia. done.
    + intros (-> & Hle & Hl).
      destruct (decide (pc = c)) as [->|Hne].
      * left. rewrite Nat.sub_diag in Hl. simpl in Hl. by injection Hl as ->.
      * right. split; [done|]. split; [lia|].
        replace (pc - c) with (S (pc - S c)) in Hl by lia. done.
Qed.

Lemma elem_of_enum_rows {A} (r : nat) (ll : list (list A)) (p : nat * nat)
    (v : A) :
  (p, v) ∈ enum_rows r ll <->
  r <= p.1 /\ exists row, ll !! (p.1 - r) = Some row /\ row !! p.2 = Some v.
Proof.
  revert r. induction ll as [|row ll IH]; intros r; simpl.
  - rewrite elem_of_nil. split; [done|]. by intros (_ & ? & ? & _).
  - rewrite elem_of_app, elem_of_enum_row, IH. split.
    + intros [(Hr & _ & Hl)|(Hle & row' & Hrow' & Hl)].
      * split; [lia|]. exists row. rewrite Hr, Nat.sub_diag.
        rewrite Nat.sub_0_r in Hl. done.
      * split; [lia|]. exists row'.
        replace (p.1 - r) with (S (p.1 - S r)) by lia. done.
    + intros (Hle & row' & Hrow' & Hl).
      destruct (decide (p.1 = r)) as [Heq|Hne].
      * left. rewrite Heq, Nat.sub_diag in Hrow'. simpl in Hrow'.
        injection Hrow' as ->. rewrite Nat.sub_0_r. split; [done|].
        split; [lia|done].
      * right. split; [lia|]. exists row'.
        replace (p.1 - r) with (S (p.1 - S r)) in Hrow' by lia. done.
Qed.

Lemma elem_of_ndenumerate {A} (a : ndarray A) (p : nat * nat) (v : A) :
  (p, v) ∈ ndenumerate a <-> cell a p.1 p.2 = Some v.
Proof.
  unfold ndenumerate, cell. rewrite elem_of_enum_rows, Nat.sub_0_r. split.
  - intros (_ & row & -> & Hl). done.
  - destruct (data a !! p.1) as [row|]; [|done]. intros Hl.
    split; [lia|]. by exists row.
Qed.

Lemma enum_row_sorted {A} (r c : nat) (l : list A) :
  StronglySorted (fun x y : (nat * nat) * A => scan_lt x.1 y.1)
    (enum_row r c l).
Proof.
  revert c. induction l as [|x l IH]; intros c; simpl; constructor.
  - apply IH.
  - apply Forall_forall. intros [q w] Hq.
    apply elem_of_enum_row in Hq as (Hr & Hle & _).
    right. simpl. split; [done|lia].
Qed.

Lemma enum_rows_sorted {A} (r : nat) (ll : list (list A)) :
  StronglySorted (fun x y : (nat * nat) * A => scan_lt x.1 y.1)
    (enum_rows r ll).
Proof.
  revert r. induction ll as [|row ll IH]; intros r; simpl; [constructor|].
  apply StronglySorted_app_2; [|apply enum_row_sorted|apply IH].
  intros [p v] [q w] Hp Hq.
  apply elem_of_enum_row in Hp as (Hr & _ & _).
  apply elem_of_enum_rows in Hq as (Hle & _).
  left. simpl. lia.
Qed.

Lemma ndenumerate_sorted {A} (a : ndarray A) :
  StronglySorted (fun x y : (nat * nat) * A => scan_lt x.1 y.1)
    (ndenumerate a).
Proof. apply enum_rows_sorted. Qed.

(** ** Construction and [reset] *)

Lemma init_Ok_wf (a : ndarray Z) (self : ReducedMunkres) :
  wf_ndarray a -> __init__ a = Ok self -> wf_state self.
Proof.
  intros Hwf. unfold __init__. destruct (shape a) as [n0 m0] eqn:Hsh. simpl.
  destruct (_ >=? _)%Z; [|done]. intros [= <-]. unfold wf_state. simpl.
  rewrite !length_fmap, !length_seq.
  repeat split; try done; try apply wf_np_full; try apply Hwf.
  all: by rewrite <- Hsh; apply (wf_np_full (shape a) false).
Qed.

Lemma scenario_solver_init : __init__ scenario = Ok scenario_solver.
Proof. reflexivity. Qed.

Lemma scenario_wf : wf_ndarray scenario.
Proof. split; [done|]. repeat constructor. Qed.

Lemma scenario_solver_wf : wf_state scenario_solver.
Proof. exact (init_Ok_wf _ _ scenario_wf scenario_solver_init). Defined.

(** C9: construction raises, on the assertion that closes [__init__], for
    every matrix with [m < n - 1], so that no solver exists on which a step
    could run; for [m >= n - 1] it succeeds and hands back a solver holding
    the matrix, with [n] and [m] read off its shape. *)
Theorem init_shape_precondition (a : ndarray Z) :
  ((Z.of_nat (shape a).2 < Z.of_nat (shape a).1 - 1)%Z ->
     __init__ a = Raise AssertionError) /\
  ((Z.of_nat (shape a).2 >= Z.of_nat (shape a).1 - 1)%Z ->
     exists self, __init__ a = Ok self /\ costMat self = a /\
       (n self, m self) = shape a).
Proof.
  unfold __init__. destruct (shape a) as [n0 m0]. simpl. split; intros H.
  - destruct (Z.geb_spec (Z.of_nat m0) (Z.of_nat n0 - 1)); [lia|done].
  - destruct (Z.geb_spec (Z.of_nat m0) (Z.of_nat n0 - 1)); [|lia].
    eexists. split; [done|]. done.
Qed.

(** C10: [reset] makes every entry of [row_covered], of [col_covered] and of
    [primed] false, keeps their sizes, and leaves the starred grid, the cost
    matrix and the recorded Z1 as they were; [step5] is [reset]. *)
Theorem reset_clears_covers_and_primes (self : ReducedMunkres) :
  row_covered (reset self) = replicate (n self) false /\
  col_covered (reset self) = replicate (m self) false /\
  primed (reset self) = np_full (shape (costMat self)) false /\
  (forall i b, row_covered (reset self) !! i = Some b -> b = false) /\
  (forall j b, col_covered (reset self) !! j = Some b -> b = false) /\
  (forall r c b, cell (primed (reset self)) r c = Some b -> b = false) /\
  starred (reset self) = starred self /\
  costMat (reset self) = costMat self /\
  z1_r (reset self) = z1_r self /\
  z1_c (reset self) = z1_c self /\
  step5 self = (reset self, RNone).
Proof.
  unfold step5, reset. simpl. rewrite !fmap_const_seq.
  repeat split; try done.
  - intros i b Hi. by apply lookup_replicate in Hi as [-> _].
  - intros j b Hj. by apply lookup_replicate in Hj as [-> _].
  - intros r c b Hb. by apply cell_np_full in Hb.
Qed.

(** ** [compute] *)

Lemma compute_noop (self : ReducedMunkres) : compute self = (self, RNone).
Proof. reflexivity. Qed.

(** C1: on the matrix of the scenario, a valid input, [compute] returns
    [None] and leaves the starred grid without a single star, so that no
    real row is matched to a column. *)
Theorem compute_scenario_unassigned :
  wf_ndarray scenario /\
  (Z.of_nat (shape scenario).2 >= Z.of_nat (shape scenario).1 - 1)%Z /\
  (forall r c x, cell scenario r c = Some x -> (0 <= x)%Z) /\
  exists self, __init__ scenario = Ok self /\
    (compute self).2 = RNone /\
    forall r c, cell (starred (compute self).1) r c <> Some true.
Proof.
  split; [apply scenario_wf|]. split; [simpl; lia|]. split.
  - intros r c x Hx.
    assert (Hin : ((r, c), x) ∈ ndenumerate scenario)
      by by apply elem_of_ndenumerate.
    unfold ndenumerate, scenario in Hin. simpl in Hin.
    repeat (apply elem_of_cons in Hin as [[= _ _ ->]|Hin]; [lia|]).
    by apply not_elem_of_nil in Hin.
  - exists scenario_solver. split; [reflexivity|]. split; [reflexivity|].
    intros r c Hx. simpl in Hx. by apply cell_np_full in Hx.
Qed.

(** ** [_findUncovZero] *)

Lemma findUncovZero_loop_spec (items : list ((nat * nat) * Z))
    (rc cc : list bool) (acc : option (nat * nat)) :
  (forall p v, (p, v) ∈ items -> p.1 < length rc /\ p.2 < length cc) ->
  exists res, _findUncovZero_loop items rc cc acc = Ok res /\
    ((res = acc /\
      forall p v, (p, v) ∈ items ->
        ~ (v = 0%Z /\ rc !! p.1 = Some false /\ cc !! p.2 = Some false)) \/
     (exists l1 p l2, items = l1 ++ (p, 0%Z) :: l2 /\ res = Some p /\
        rc !! p.1 = Some false /\ cc !! p.2 = Some false /\
        forall q w, (q, w) ∈ l2 ->
          ~ (w = 0%Z /\ rc !! q.1 = Some false /\ cc !! q.2 = Some false))).
Proof.
  revert acc. induction items as [|[p v] items IH]; intros acc Hrange.
  - exists acc. split; [done|]. left. split; [done|].
    intros p v Hin. by apply elem_of_nil in Hin.
  - assert (Hrange' : forall q w, (q, w) ∈ items ->
                        q.1 < length rc /\ q.2 < length cc).
    { intros q w Hin. apply (Hrange q w). by right. }
    destruct (Hrange p v) as [Hr Hc]; [by left|].
    destruct (lookup_lt_is_Some_2 rc p.1 Hr) as [br Hbr].
    destruct (lookup_lt_is_Some_2 cc p.2 Hc) as [bc Hbc].
    assert (Hmiss : ~ (v = 0%Z /\ rc !! p.1 = Some false /\
                       cc !! p.2 = Some false) ->
      exists res, _findUncovZero_loop ((p, v) :: items) rc cc acc = Ok res /\
        _findUncovZero_loop items rc cc acc = Ok res).
    { intros Hno. destruct (IH acc Hrange') as (res & Hres & _).
      exists res. split; [|done]. simpl.
      destruct (Z.eqb_spec v 0) as [Hv|Hv]; [|done].
      unfold list_getitem. rewrite Hbc, Hbr. simpl.
      destruct bc; simpl; [done|]. destruct br; simpl; [done|].
      exfalso. apply Hno. done. }
    destruct (decide (v = 0%Z /\ rc !! p.1 = Some false /\
                      cc !! p.2 = Some false)) as [(-> & Hpr & Hpc)|Hno].
    + destruct (IH (Some p) Hrange') as (res & Hres & Hcases).
      exists res. split.
      { simpl. unfold list_getitem. rewrite Hpc, Hpr. simpl. done. }
      right. destruct Hcases as [[-> Hnone]|(l1 & q & l2 & -> & -> & Hq)].
      * exists [], p, items. done.
      * exists ((p, 0%Z) :: l1), q, l2. done.
    + destruct (Hmiss Hno) as (res & Hres & Hres').
      exists res. split; [done|].
      destruct (IH acc Hrange') as (res' & Hres'' & Hcases).
      rewrite Hres' in Hres''. injection Hres'' as <-.
      destruct Hcases as [[-> Hnone]|(l1 & q & l2 & -> & -> & Hq)].
      * left. split; [done|]. intros q w Hin.
        apply elem_of_cons in Hin as [[= -> ->]|Hin]; [done|].
        by apply Hnone.
      * right. exists ((p, v) :: l1), q, l2. done.
Qed.

(** C8: on a well-formed solver [_findUncovZero] returns; it returns [None]
    exactly when no zero of the cost matrix has both its row and its column
    uncovered, and otherwise the uncovered zero that comes last in row-major
    order: every uncovered zero is at or before the one returned. *)
Theorem findUncovZero_last (self : ReducedMunkres) :
  wf_state self ->
  exists res, _findUncovZero self = Ok res /\
    (res = None <-> forall r c, ~ uncovered_zero self r c) /\
    (forall r c, res = Some (r, c) ->
       uncovered_zero self r c /\
       forall r' c', uncovered_zero self r' c' -> scan_le (r', c') (r, c)).
Proof.
  intros ((Hsh & Hwf) & _ & _ & Hrc & Hcc).
  destruct (findUncovZero_loop_spec (ndenumerate (costMat self))
              (row_covered self) (col_covered self) None)
    as (res & Hres & Hcases).
  { intros p v Hin. apply elem_of_ndenumerate in Hin.
    apply (cell_Some_lt _ _ _ _ Hwf) in Hin. rewrite Hsh in Hin. simpl in Hin.
    lia. }
  exists res. split; [done|].
  destruct Hcases as [[-> Hnone]|(l1 & p & l2 & Hsplit & -> & Hpr & Hpc & Hl2)].
  - split; [|done]. split; [|done]. intros _ r c (Hz & Hr & Hc).
    apply (Hnone (r, c) 0%Z); [|done]. by apply elem_of_ndenumerate.
  - assert (Hp : cell (costMat self) p.1 p.2 = Some 0%Z).
    { apply elem_of_ndenumerate. rewrite Hsplit.
      apply elem_of_app. right. by left. }
    split.
    { split; [done|]. intros Hnone. exfalso. apply (Hnone p.1 p.2). done. }
    intros r c [= ->]. simpl in *. split; [done|].
    intros r' c' (Hz & Hr & Hc).
    assert (Hin : ((r', c'), 0%Z) ∈ ndenumerate (costMat self))
      by by apply elem_of_ndenumerate.
    pose proof (ndenumerate_sorted (costMat self)) as Hsorted.
    rewrite Hsplit in Hin, Hsorted.
    apply elem_of_app in Hin as [Hin|Hin].
    + pose proof (StronglySorted_app_1_elem_of _ _ _ _ _ Hsorted Hin
                    (list_elem_of_here _ _)) as Hlt.
      destruct Hlt as [Hlt|[Heq Hlt]]; simpl in *; [by left|].
      right. simpl. split; [done|lia].
    + apply elem_of_cons in Hin as [[= -> ->]|Hin].
      * right. split; [done|]. simpl. lia.
      * exfalso. by apply (Hl2 (r', c') 0%Z).
Qed.

Lemma findUncovZero_last_witness :
  exists res, _findUncovZero scenario_solver = Ok res /\
    (res = None <-> forall r c, ~ uncovered_zero scenario_solver r c) /\
    (forall r c, res = Some (r, c) ->
       uncovered_zero scenario_solver r c /\
       forall r' c', uncovered_zero scenario_solver r' c' ->
         scan_le (r', c') (r, c)).
Proof.
  apply (findUncovZero_last scenario_solver). apply scenario_solver_wf.
Defined.

(** ** Step 1 *)

Lemma ndarray_ext {A} (a b : ndarray A) :
  wf_ndarray a -> wf_ndarray b -> shape a = shape b ->
  (forall r c, cell a r c = cell b r c) -> a = b.
Proof.
  destruct a as [sha da], b as [shb db]. unfold wf_ndarray, cell. simpl.
  intros [Hla Hra] [Hlb Hrb] -> Hcell. f_equal.
  rewrite Forall_forall in Hra, Hrb.
  apply list_eq_same_length with (length da); [congruence|done|].
  intros r rowa rowb Hr Hrowa Hrowb.
  apply list_eq_same_length with shb.2.
  - apply Hrb. by eapply list_elem_of_lookup_2.
  - apply Hra. by eapply list_elem_of_lookup_2.
  - intros c x y Hc Hx Hy. specialize (Hcell r c).
    rewrite Hrowa, Hrowb in Hcell. congruence.
Qed.

Lemma set_costMat_same (self : ReducedMunkres) :
  set_costMat self (costMat self) = self.
Proof. by destruct self. Qed.

Lemma foldl_zip_min_length (k : nat) (rest : list (list Z)) (row0 : list Z) :
  length row0 = k -> Forall (fun row => length row = k) rest ->
  length (foldl (zip_with Z.min) row0 rest) = k.
Proof.
  revert row0. induction rest as [|row rest IH]; intros row0 H0 Hrest;
    simpl; [done|].
  apply Forall_cons in Hrest as [Hrow Hrest]. apply IH; [|done].
  rewrite length_zip_with. lia.
Qed.

Lemma foldl_zip_min_lookup (k : nat) (rest : list (list Z)) (row0 : list Z)
    (c : nat) (v : Z) :
  length row0 = k -> Forall (fun row => length row = k) rest ->
  foldl (zip_with Z.min) row0 rest !! c = Some v ->
  (exists row, row ∈ row0 :: rest /\ row !! c = Some v) /\
  (forall row x, row ∈ row0 :: rest -> row !! c = Some x -> (v <= x)%Z).
Proof.
  revert row0. induction rest as [|row rest IH]; intros row0 H0 Hrest Hv;
    simpl in Hv.
  - split.
    + exists row0. split; [by left|done].
    + intros row x Hin Hx. apply list_elem_of_singleton in Hin as ->.
      rewrite Hv in Hx. injection Hx as ->. lia.
  - apply Forall_cons in Hrest as [Hrow Hrest].
    destruct (IH (zip_with Z.min row0 row)) as [(w & Hw & Hwc) Hlow];
      [rewrite length_zip_with; lia|done|done|].
    assert (Hck : c < k).
    { rewrite <- (foldl_zip_min_length k rest (zip_with Z.min row0 row));
        [by eapply lookup_lt_Some|rewrite length_zip_with; lia|done]. }
    destruct (lookup_lt_is_Some_2 row0 c) as [x0 Hx0]; [lia|].
    destruct (lookup_lt_is_Some_2 row c) as [x1 Hx1]; [lia|].
    assert (Hz : zip_with Z.min row0 row !! c = Some (Z.min x0 x1)).
    { rewrite lookup_zip_with, Hx0. simpl. by rewrite Hx1. }
    assert (Hle : (v <= Z.min x0 x1)%Z) by (apply (Hlow _ _ (list_elem_of_here _ _) Hz)).
    split.
    + apply elem_of_cons in Hw as [->|Hw].
      * rewrite Hz in Hwc. injection Hwc as <-.
        destruct (Z.min_spec x0 x1) as [[_ ->]|[_ ->]].
        -- exists row0. split; [by left|done].
        -- exists row. split; [right; by left|done].
      * exists w. split; [|done]. right. by right.
    + intros row' x Hin Hx.
      apply elem_of_cons in Hin as [->|Hin].
      { rewrite Hx0 in Hx. injection Hx as <-. lia. }
      apply elem_of_cons in Hin as [->|Hin].
      { rewrite Hx1 in Hx. injection Hx as <-. lia. }
      apply (Hlow row'); [by right|done].
Qed.

Lemma np_min_axis0_spec (a : ndarray Z) :
  wf_ndarray a -> 1 <= (shape a).1 ->
  exists mins, np_min_axis0 a = Ok mins /\ length mins = (shape a).2 /\
    forall c v, mins !! c = Some v -> is_col_min a c v.
Proof.
  intros [Hlen Hrows] Hn. unfold np_min_axis0, is_col_min, cell.
  destruct (data a) as [|row0 rest] eqn:Hd; [simpl in Hlen; lia|].
  apply Forall_cons in Hrows as [Hrow0 Hrest].
  eexists. split; [done|]. split; [by apply foldl_zip_min_length|].
  intros c v Hv.
  destruct (foldl_zip_min_lookup _ _ _ _ _ Hrow0 Hrest Hv)
    as [(row & Hin & Hrow) Hlow].
  split.
  - apply list_elem_of_lookup in Hin as [r Hr]. exists r. by rewrite Hr.
  - intros r x Hx. destruct ((row0 :: rest) !! r) as [row'|] eqn:Hr; [|done].
    apply (Hlow row'); [|done]. by eapply list_elem_of_lookup_2.
Qed.

Lemma step1_spec (self : ReducedMunkres) :
  wf_state self -> 1 <= n self ->
  exists a mins, step1 self = Ok (set_costMat self a, RInt 2) /\
    shape a = (n self, m self) /\ wf_ndarray a /\
    length mins = m self /\
    (forall c v, mins !! c = Some v -> is_col_min (costMat self) c v) /\
    (forall r c, cell a r c =
       match cell (costMat self) r c, mins !! c with
       | Some x, Some v => Some (x - v)%Z
       | _, _ => None
       end).
Proof.
  intros ((Hsh & Hwf) & _) Hn.
  destruct (np_min_axis0_spec (costMat self)) as (mins & Hmins & Hlen & Hmin);
    [done|by rewrite Hsh|].
  rewrite Hsh in Hlen. simpl in Hlen.
  unfold step1. rewrite Hmins. simpl. unfold np_sub. simpl.
  rewrite Nat.mul_1_r, app_nil_r, Hlen, Hsh.
  rewrite decide_True by done. simpl.
  destruct Hwf as [Hrows Hcols]. rewrite Hsh in Hrows, Hcols. simpl in *.
  eexists _, mins. split; [done|]. split; [done|].
  assert (Hcell : forall r, zip_with (zip_with Z.sub) (data (costMat self))
                    (replicate (n self) mins) !! r
                  = (fun row => zip_with Z.sub row mins) <$>
                    data (costMat self) !! r).
  { intros r. rewrite lookup_zip_with.
    destruct (data (costMat self) !! r) as [row|] eqn:Hr; [|done]. simpl.
    rewrite lookup_replicate_2; [done|].
    rewrite <- Hrows. by eapply lookup_lt_Some. }
  split; [|split; [done|split; [done|]]].
  - split; simpl.
    + rewrite length_zip_with, length_replicate. lia.
    + apply Forall_forall. intros row' Hin.
      apply list_elem_of_lookup in Hin as [r Hr]. rewrite Hcell in Hr.
      destruct (data (costMat self) !! r) as [row|] eqn:Hrow; [|done].
      injection Hr as <-. rewrite length_zip_with.
      rewrite Forall_forall in Hcols.
      rewrite (Hcols row) by (by eapply list_elem_of_lookup_2). lia.
  - intros r c. unfold cell. simpl. rewrite Hcell.
    destruct (data (costMat self) !! r) as [row|]; [|done]. simpl.
    rewrite lookup_zip_with.
    destruct (row !! c); [|done]. simpl. by destruct (mins !! c).
Qed.

Lemma step1_wf (self : ReducedMunkres) (a : ndarray Z) :
  wf_state self -> shape a = (n self, m self) -> wf_ndarray a ->
  wf_state (set_costMat self a).
Proof.
  intros (_ & Hs & Hp & Hr & Hc) Hsh Hwf. unfold wf_state. simpl. tauto.
Qed.

(** C6: on a solver whose matrix has its virtual row at least and no
    negative entry, [step1] returns 2 and changes the cost matrix only:
    every entry has the least entry of its column subtracted, so that each
    column holds a zero and every entry stays between zero and what it
    was. *)
Theorem step1_reduces_columns (self : ReducedMunkres) :
  wf_state self -> 1 <= n self ->
  (forall r c x, cell (costMat self) r c = Some x -> (0 <= x)%Z) ->
  exists self', step1 self = Ok (self', RInt 2) /\
    wf_state self' /\ self' = set_costMat self (costMat self') /\
    (forall c, c < m self -> exists v, is_col_min (costMat self) c v /\
       forall r x, cell (costMat self) r c = Some x ->
         cell (costMat self') r c = Some (x - v)%Z) /\
    (forall c, c < m self -> exists r, cell (costMat self') r c = Some 0%Z) /\
    (forall r c y, cell (costMat self') r c = Some y ->
       exists x, cell (costMat self) r c = Some x /\ (0 <= y <= x)%Z).
Proof.
  intros Hwf Hn Hpos.
  destruct (step1_spec self Hwf Hn)
    as (a & mins & Hstep & Hsh & Hwfa & Hlen & Hmin & Hcell).
  exists (set_costMat self a). split; [done|].
  split; [by apply step1_wf|]. split; [done|]. simpl.
  assert (Hv : forall c, c < m self -> exists v, mins !! c = Some v).
  { intros c Hc. apply lookup_lt_is_Some_2. lia. }
  split; [|split].
  - intros c Hc. destruct (Hv c Hc) as [v Hvc]. exists v.
    split; [by apply Hmin|]. intros r x Hx. by rewrite Hcell, Hx, Hvc.
  - intros c Hc. destruct (Hv c Hc) as [v Hvc].
    destruct (Hmin c v Hvc) as [[r Hr] _]. exists r.
    rewrite Hcell, Hr, Hvc. f_equal. lia.
  - intros r c y. rewrite Hcell.
    destruct (cell (costMat self) r c) as [x|] eqn:Hx; [|done].
    destruct (mins !! c) as [v|] eqn:Hvc; [|done]. intros [= <-].
    exists x. split; [done|].
    destruct (Hmin c v Hvc) as [[r0 Hr0] Hlow].
    specialize (Hlow r x Hx). specialize (Hpos r0 c v Hr0). lia.
Qed.

Lemma unreduced_solver_wf : wf_state unreduced_solver.
Proof.
  apply (init_Ok_wf unreduced); [|reflexivity].
  split; [done|]. repeat constructor.
Qed.

Lemma unreduced_nonneg (r c : nat) (x : Z) :
  cell (costMat unreduced_solver) r c = Some x -> (0 <= x)%Z.
Proof.
  intros Hx.
  assert (Hin : ((r, c), x) ∈ ndenumerate unreduced)
    by by apply elem_of_ndenumerate.
  unfold ndenumerate, unreduced in Hin. simpl in Hin.
  repeat (apply elem_of_cons in Hin as [[= _ _ ->]|Hin]; [lia|]).
  by apply not_elem_of_nil in Hin.
Qed.

Lemma step1_reduces_columns_witness :
  exists self', step1 unreduced_solver = Ok (self', RInt 2) /\
    wf_state self' /\
    self' = set_costMat unreduced_solver (costMat self') /\
    (forall c, c < m unreduced_solver ->
       exists v, is_col_min (costMat unreduced_solver) c v /\
         forall r x, cell (costMat unreduced_solver) r c = Some x ->
           cell (costMat self') r c = Some (x - v)%Z) /\
    (forall c, c < m unreduced_solver ->
       exists r, cell (costMat self') r c = Some 0%Z) /\
    (forall r c y, cell (costMat self') r c = Some y ->
       exists x, cell (costMat unreduced_solver) r c = Some x /\
         (0 <= y <= x)%Z).
Proof.
  apply (step1_reduces_columns unreduced_solver).
  - apply unreduced_solver_wf.
  - simpl. lia.
  - apply unreduced_nonneg.
Defined.

Lemma step1_fixed (self : ReducedMunkres) :
  wf_state self -> 1 <= n self ->
  (forall c, c < m self -> is_col_min (costMat self) c 0%Z) ->
  step1 self = Ok (self, RInt 2).
Proof.
  intros Hwf Hn Hzero.
  destruct (step1_spec self Hwf Hn)
    as (a & mins & Hstep & Hsh & Hwfa & Hlen & Hmin & Hcell).
  rewrite Hstep. do 2 f_equal.
  rewrite <- (set_costMat_same self) at 2. f_equal.
  destruct Hwf as ((Hshc & Hwfc) & _).
  apply ndarray_ext; [done|done|congruence|].
  intros r c. rewrite Hcell.
  destruct (cell (costMat self) r c) as [x|] eqn:Hx; [|done].
  destruct (cell_Some_lt _ _ _ _ Hwfc Hx) as [_ Hc].
  rewrite Hshc in Hc. simpl in Hc.
  destruct (lookup_lt_is_Some_2 mins c) as [v Hv]; [lia|]. rewrite Hv.
  destruct (Hmin c v Hv) as [[r1 Hr1] Hlow1].
  destruct (Hzero c Hc) as [[r0 Hr0] Hlow0].
  specialize (Hlow1 r0 0%Z Hr0). specialize (Hlow0 r1 v Hr1).
  f_equal. lia.
Qed.

(** C7: on a solver whose matrix has its virtual row at least, [step1]
    leaves a matrix whose columns all have least entry zero as it is, and
    what [step1] returns is left as it is by a second [step1]. *)
Theorem step1_idempotent (self : ReducedMunkres) :
  wf_state self -> 1 <= n self ->
  ((forall c, c < m self -> is_col_min (costMat self) c 0%Z) ->
     step1 self = Ok (self, RInt 2)) /\
  (exists self1, step1 self = Ok (self1, RInt 2) /\
     step1 self1 = Ok (self1, RInt 2)).
Proof.
  intros Hwf Hn. split; [by apply step1_fixed|].
  destruct (step1_spec self Hwf Hn)
    as (a & mins & Hstep & Hsh & Hwfa & Hlen & Hmin & Hcell).
  exists (set_costMat self a). split; [done|].
  apply step1_fixed; [by apply step1_wf|done|]. simpl.
  intros c Hc.
  destruct (lookup_lt_is_Some_2 mins c) as [v Hv]; [lia|].
  destruct (Hmin c v Hv) as [[r0 Hr0] Hlow]. split.
  - exists r0. rewrite Hcell, Hr0, Hv. f_equal. lia.
  - intros r y. rewrite Hcell, Hv.
    destruct (cell (costMat self) r c) as [x|] eqn:Hx; [|done].
    intros [= <-]. specialize (Hlow r x Hx). lia.
Qed.

Lemma step1_idempotent_witness :
  ((forall c, c < m unreduced_solver ->
      is_col_min (costMat unreduced_solver) c 0%Z) ->
     step1 unreduced_solver = Ok (unreduced_solver, RInt 2)) /\
  (exists self1, step1 unreduced_solver = Ok (self1, RInt 2) /\
     step1 self1 = Ok (self1, RInt 2)).
Proof.
  apply (step1_idempotent unreduced_solver).
  - apply unreduced_solver_wf.
  - simpl. lia.
Defined.

(** ** [star] and [_isIndependent] *)

Lemma scan_other_spec (skip : nat) (test : nat -> result bool)
    (f : nat -> bool) (idxs : list nat) (flag : bool) :
  (forall k, k ∈ idxs -> k <> skip -> test k = Ok (f k)) ->
  scan_other skip test idxs flag
  = Ok (flag && forallb (fun k => (skip =? k) || negb (f k)) idxs).
Proof.
  induction idxs as [|k idxs IH]; intros Htest; simpl.
  - by rewrite andb_true_r.
  - destruct (Nat.eqb_spec skip k) as [->|Hne]; simpl.
    + apply IH. intros k' Hin. apply Htest. by right.
    + rewrite (Htest k) by (by left || done). simpl.
      destruct (f k); simpl; [by rewrite andb_false_r|].
      apply IH. intros k' Hin. apply Htest. by right.
Qed.

Lemma forallb_seq_other (bound skip : nat) (f : nat -> bool) :
  forallb (fun k => (skip =? k) || negb (f k)) (seq 0 bound) = true <->
  forall k, k < bound -> k <> skip -> f k = false.
Proof.
  rewrite forallb_forall. split.
  - intros H k Hk Hne. specialize (H k). rewrite in_seq in H.
    destruct (Nat.eqb_spec skip k); [congruence|]. simpl in H.
    apply negb_true_iff, H. lia.
  - intros H k Hk. apply in_seq in Hk.
    destruct (Nat.eqb_spec skip k); [done|]. simpl.
    apply negb_true_iff, H; [lia|congruence].
Qed.

Lemma no_other_star_b (self : ReducedMunkres) (pos : nat * nat) :
  wf_state self ->
  forallb (fun j => (pos.2 =? j) || negb (cell_true (starred self) pos.1 j))
    (seq 0 (m self)) &&
  forallb (fun i => (pos.1 =? i) || negb (cell_true (starred self) i pos.2))
    (seq 0 (n self)) = true <->
  no_other_star self pos.
Proof.
  intros (_ & (Hsh & Hwf) & _).
  rewrite andb_true_iff, !forallb_seq_other. unfold no_other_star, cell_true.
  split; intros [Hrow Hcol]; split.
  - intros j Hj Hs. destruct (cell_Some_lt _ _ _ _ Hwf Hs) as [_ Hlt].
    rewrite Hsh in Hlt. specialize (Hrow j Hlt Hj). by rewrite Hs in Hrow.
  - intros i Hi Hs. destruct (cell_Some_lt _ _ _ _ Hwf Hs) as [Hlt _].
    rewrite Hsh in Hlt. specialize (Hcol i Hlt Hi). by rewrite Hs in Hcol.
  - intros j _ Hj. specialize (Hrow j Hj).
    by destruct (cell (starred self) pos.1 j) as [[]|].
  - intros i _ Hi. specialize (Hcol i Hi).
    by destruct (cell (starred self) i pos.2) as [[]|].
Qed.

Lemma no_other_zero_b (self : ReducedMunkres) (pos : nat * nat) :
  wf_state self ->
  forallb (fun j => (pos.2 =? j) || negb (cell_zero (costMat self) pos.1 j))
    (seq 0 (m self)) &&
  forallb (fun i => (pos.1 =? i) || negb (cell_zero (costMat self) i pos.2))
    (seq 0 (n self)) = true <->
  no_other_zero self pos.
Proof.
  intros ((Hsh & Hwf) & _).
  rewrite andb_true_iff, !forallb_seq_other. unfold no_other_zero, cell_zero.
  split; intros [Hrow Hcol]; split.
  - intros j Hj Hs. destruct (cell_Some_lt _ _ _ _ Hwf Hs) as [_ Hlt].
    rewrite Hsh in Hlt. specialize (Hrow j Hlt Hj). by rewrite Hs in Hrow.
  - intros i Hi Hs. destruct (cell_Some_lt _ _ _ _ Hwf Hs) as [Hlt _].
    rewrite Hsh in Hlt. specialize (Hcol i Hlt Hi). by rewrite Hs in Hcol.
  - intros j _ Hj. specialize (Hrow j Hj).
    destruct (cell (costMat self) pos.1 j) as [v|]; [|done].
    destruct (Z.eqb_spec v 0); [congruence|done].
  - intros i _ Hi. specialize (Hcol i Hi).
    destruct (cell (costMat self) i pos.2) as [v|]; [|done].
    destruct (Z.eqb_spec v 0); [congruence|done].
Qed.

Lemma getitem_cell_true (a : ndarray bool) (sh : nat * nat) (r c : nat) :
  shape a = sh -> wf_ndarray a -> r < sh.1 -> c < sh.2 ->
  getitem a (r, c) = Ok (cell_true a r c).
Proof.
  intros <- Hwf Hr Hc. unfold getitem, cell_true. simpl.
  by destruct (cell_lt_Some a r c Hwf Hr Hc) as [x ->].
Qed.

Lemma getitem_cell_zero (a : ndarray Z) (sh : nat * nat) (r c : nat) :
  shape a = sh -> wf_ndarray a -> r < sh.1 -> c < sh.2 ->
  (v ← getitem a (r, c); Ok (v =? 0)%Z) = Ok (cell_zero a r c).
Proof.
  intros <- Hwf Hr Hc. unfold getitem, cell_zero. simpl.
  by destruct (cell_lt_Some a r c Hwf Hr Hc) as [x ->].
Qed.

Lemma star_spec (self : ReducedMunkres) (pos : nat * nat) :
  wf_state self -> pos.1 < n self -> pos.2 < m self ->
  exists self', star self pos = Ok self' /\ wf_state self' /\
    (no_other_star self pos ->
       exists a, setitem (starred self) pos true = Ok a /\
         self' = set_starred self a) /\
    (~ no_other_star self pos -> self' = self).
Proof.
  intros Hwf Hr Hc.
  pose proof (no_other_star_b self pos Hwf) as Hb.
  destruct Hwf as (Hcm & (Hsh & Hwfs) & Hrest).
  unfold star.
  rewrite (scan_other_spec _ _ (cell_true (starred self) pos.1)); last first.
  { intros j Hj _. apply elem_of_seq in Hj.
    apply (getitem_cell_true _ (n self, m self)); simpl; [done|done|lia|lia]. }
  simpl.
  rewrite (scan_other_spec _ _ (fun i => cell_true (starred self) i pos.2));
    last first.
  { intros i Hi _. apply elem_of_seq in Hi.
    apply (getitem_cell_true _ (n self, m self)); simpl; [done|done|lia|lia]. }
  simpl.
  destruct (forallb _ (seq 0 (m self)) && forallb _ (seq 0 (n self))) eqn:Hfree.
  - destruct (setitem_Ok (starred self) pos true) as [a Ha];
      [done|by rewrite Hsh|by rewrite Hsh|].
    rewrite Ha. simpl. exists (set_starred self a). split; [done|].
    split; [|split].
    + unfold wf_state. simpl. split; [done|]. split; [|done]. split.
      * by rewrite (setitem_shape _ _ _ _ Ha).
      * by eapply setitem_wf.
    + intros _. by exists a.
    + intros Hno. exfalso. by apply Hno, Hb.
  - exists self. split; [done|]. split; [done|]. split; [|done].
    intros Hno. apply Hb in Hno. congruence.
Qed.

Lemma isIndependent_spec (self : ReducedMunkres) (pos : nat * nat) :
  wf_state self -> pos.1 < n self -> pos.2 < m self ->
  exists b, _isIndependent self pos = Ok b /\
    (b = true <-> is_virtual self pos.1 \/ no_other_zero self pos).
Proof.
  intros Hwf Hr Hc.
  pose proof (no_other_zero_b self pos Hwf) as Hb.
  destruct Hwf as ((Hsh & Hwfc) & Hrest).
  unfold _isIndependent, is_virtual.
  destruct (Z.eqb_spec (Z.of_nat pos.1) (Z.of_nat (n self) - 1)) as [Hv|Hv].
  { exists true. split; [done|]. split; [by left|done]. }
  rewrite (scan_other_spec _ _ (cell_zero (costMat self) pos.1)); last first.
  { intros j Hj _. apply elem_of_seq in Hj.
    apply (getitem_cell_zero _ (n self, m self)); simpl; [done|done|lia|lia]. }
  simpl.
  rewrite (scan_other_spec _ _ (fun i => cell_zero (costMat self) i pos.2));
    last first.
  { intros i Hi _. apply elem_of_seq in Hi.
    apply (getitem_cell_zero _ (n self, m self)); simpl; [done|done|lia|lia]. }
  eexists. split; [done|]. rewrite Hb. split; [by right|].
  by intros [?|?].
Qed.

Lemma setitem_Ok_inv {A} (a a' : ndarray A) (pos : nat * nat) (v : A) :
  wf_ndarray a -> setitem a pos v = Ok a' ->
  pos.1 < (shape a).1 /\ pos.2 < (shape a).2.
Proof.
  intros [Hlen Hrows]. unfold setitem.
  destruct (data a !! pos.1) as [row|] eqn:Hrow; [|done].
  case_decide as Hc; [|done]. intros _. split.
  - rewrite <- Hlen. by eapply lookup_lt_Some.
  - rewrite Forall_forall in Hrows. rewrite <- (Hrows row); [done|].
    by eapply list_elem_of_lookup_2.
Qed.

Lemma star_cases (self self' : ReducedMunkres) (pos : nat * nat) :
  wf_state self -> star self pos = Ok self' ->
  wf_state self' /\
  (self' = self \/
   (no_other_star self pos /\
    exists a, setitem (starred self) pos true = Ok a /\
      self' = set_starred self a)).
Proof.
  intros Hwf Hstar.
  assert (Hcases : self' = self \/ (pos.1 < n self /\ pos.2 < m self)).
  { revert Hstar. unfold star.
    destruct (scan_other pos.2 _ _ _) as [b1|]; [|done]. simpl.
    destruct (scan_other pos.1 _ _ _) as [[]|]; [| |done]; simpl.
    - destruct (setitem (starred self) pos true) as [a|] eqn:Ha; [|done].
      intros _. right. destruct Hwf as (_ & (Hsh & Hwfs) & _).
      apply (setitem_Ok_inv _ _ _ _ Hwfs) in Ha. by rewrite Hsh in Ha.
    - intros [= <-]. by left. }
  destruct Hcases as [->|[Hr Hc]]; [split; [done|by left]|].
  destruct (star_spec self pos Hwf Hr Hc) as (self'' & Hs & Hwf' & Hyes & Hno).
  rewrite Hstar in Hs. injection Hs as <-. split; [done|].
  pose proof (no_other_star_b self pos Hwf) as Hb.
  destruct (forallb _ (seq 0 (m self)) && forallb _ (seq 0 (n self))).
  - right. assert (Hfree : no_other_star self pos) by by apply Hb.
    split; [done|]. by apply Hyes.
  - left. apply Hno. intros Hfree. apply Hb in Hfree. done.
Qed.

Lemma star_keeps_inv_all (self self' : ReducedMunkres) (pos : nat * nat) :
  wf_state self -> star self pos = Ok self' ->
  star_inv_all self -> star_inv_all self'.
Proof.
  intros Hwf Hstar [Hrow Hcol].
  destruct (star_cases _ _ _ Hwf Hstar)
    as [_ [->|([Hfr Hfc] & a & Ha & ->)]]; [done|].
  split; simpl.
  - intros r c1 c2. rewrite !(setitem_cell _ _ _ _ _ _ Ha).
    repeat destruct (decide _); naive_solver.
  - intros c r1 r2. rewrite !(setitem_cell _ _ _ _ _ _ Ha).
    repeat destruct (decide _); naive_solver.
Qed.

Lemma star_keeps_inv_real (self self' : ReducedMunkres) (pos : nat * nat) :
  wf_state self -> star self pos = Ok self' ->
  star_inv_real self -> star_inv_real self'.
Proof.
  intros Hwf Hstar [Hrow Hcol].
  destruct (star_cases _ _ _ Hwf Hstar)
    as [_ [->|([Hfr Hfc] & a & Ha & ->)]]; [done|].
  split; simpl.
  - intros r c1 c2 Hv. rewrite !(setitem_cell _ _ _ _ _ _ Ha).
    repeat destruct (decide _); naive_solver.
  - intros c r1 r2 Hv1 Hv2. rewrite !(setitem_cell _ _ _ _ _ _ Ha).
    repeat destruct (decide _); naive_solver.
Qed.

Lemma star_all_keeps (poss : list (nat * nat)) (self self' : ReducedMunkres) :
  wf_state self -> star_all poss self = Ok self' ->
  wf_state self' /\ (star_inv_all self -> star_inv_all self').
Proof.
  revert self. induction poss as [|pos poss IH]; intros self Hwf; simpl.
  - intros [= <-]. by split.
  - destruct (star self pos) as [self1|] eqn:Hstar; [|done]. simpl.
    intros Hall. destruct (star_cases _ _ _ Hwf Hstar) as [Hwf1 _].
    destruct (IH self1 Hwf1 Hall) as [Hwf' Hinv]. split; [done|].
    intros H. apply Hinv. exact (star_keeps_inv_all _ _ _ Hwf Hstar H).
Qed.

Lemma star_inv_all_init (a : ndarray Z) (self : ReducedMunkres) :
  __init__ a = Ok self -> star_inv_all self.
Proof.
  unfold __init__. destruct (shape a) as [n0 m0]. simpl.
  destruct (_ >=? _)%Z; [|done]. intros [= <-].
  split; simpl; intros ? ? ? H; by apply cell_np_full in H.
Qed.

Lemma scenario_starred_star :
  star scenario_solver (2, 0) = Ok scenario_starred.
Proof. reflexivity. Qed.

Lemma scenario_starred_wf : wf_state scenario_starred.
Proof.
  exact (proj1 (star_cases _ _ _ scenario_solver_wf scenario_starred_star)).
Qed.

(** C2, as the code has it: [star] at a cell of the grid returns, and it
    applies one exclusivity rule to every row, the virtual row included:
    when another cell of the row of [pos], or another cell of its column, is
    starred, the solver is left as it was, so that a second cell of the
    virtual row is never starred; otherwise the cell is starred and no other
    cell changes.  Either way no real row and no column among real rows
    comes to hold two stars, nor does any row or column at all. *)
Theorem star_exclusive_on_every_row (self : ReducedMunkres)
    (pos : nat * nat) :
  wf_state self -> pos.1 < n self -> pos.2 < m self ->
  exists self', star self pos = Ok self' /\ wf_state self' /\
    (forall j, j <> pos.2 -> cell (starred self) pos.1 j = Some true ->
       self' = self) /\
    (forall i, i <> pos.1 -> cell (starred self) i pos.2 = Some true ->
       self' = self) /\
    (no_other_star self pos ->
       cell (starred self') pos.1 pos.2 = Some true /\
       forall r c, (r, c) <> pos ->
         cell (starred self') r c = cell (starred self) r c) /\
    (star_inv_real self -> star_inv_real self') /\
    (star_inv_all self -> star_inv_all self').
Proof.
  intros Hwf Hr Hc.
  destruct (star_spec self pos Hwf Hr Hc) as (self' & Hs & Hwf' & Hyes & Hno).
  exists self'. split; [done|]. split; [done|].
  split; [|split; [|split; [|split]]].
  - intros j Hj Hstar. apply Hno. intros [Hrow _]. by apply (Hrow j).
  - intros i Hi Hstar. apply Hno. intros [_ Hcol]. by apply (Hcol i).
  - intros Hfree. destruct (Hyes Hfree) as (a & Ha & ->). simpl. split.
    + rewrite (setitem_cell _ _ _ _ _ _ Ha). by rewrite decide_True.
    + intros r c Hne. rewrite (setitem_cell _ _ _ _ _ _ Ha).
      rewrite decide_False; [done|]. intros [-> ->]. by destruct pos.
  - by apply (star_keeps_inv_real self self' pos).
  - by apply (star_keeps_inv_all self self' pos).
Qed.

Lemma star_exclusive_on_every_row_witness :
  exists self', star scenario_starred (2, 1) = Ok self' /\ wf_state self' /\
    (forall j, j <> 1 -> cell (starred scenario_starred) 2 j = Some true ->
       self' = scenario_starred) /\
    (forall i, i <> 2 -> cell (starred scenario_starred) i 1 = Some true ->
       self' = scenario_starred) /\
    (no_other_star scenario_starred (2, 1) ->
       cell (starred self') 2 1 = Some true /\
       forall r c, (r, c) <> (2, 1) ->
         cell (starred self') r c = cell (starred scenario_starred) r c) /\
    (star_inv_real scenario_starred -> star_inv_real self') /\
    (star_inv_all scenario_starred -> star_inv_all self').
Proof.
  apply (star_exclusive_on_every_row scenario_starred (2, 1)).
  - apply scenario_starred_wf.
  - simpl. lia.
  - simpl. lia.
Defined.

(** C2, as the claim has it, fails on the scenario: its virtual row is row 2
    and is zero in columns 0 and 1, yet no sequence of calls of [star] on
    the solver built for it ends with both cells starred. *)
Lemma star_virtual_row_not_exempt :
  is_virtual scenario_solver 2 /\
  cell (costMat scenario_solver) 2 0 = Some 0%Z /\
  cell (costMat scenario_solver) 2 1 = Some 0%Z /\
  ~ exists poss self', star_all poss scenario_solver = Ok self' /\
      cell (starred self') 2 0 = Some true /\
      cell (starred self') 2 1 = Some true.
Proof.
  split; [reflexivity|]. split; [reflexivity|]. split; [reflexivity|].
  intros (poss & self' & Hall & H0 & H1).
  destruct (star_all_keeps _ _ _ scenario_solver_wf Hall) as [_ Hinv].
  destruct Hinv as [Hrow _].
  { exact (star_inv_all_init _ _ scenario_solver_init). }
  specialize (Hrow 2 0 1 H0 H1). lia.
Qed.

(** ** Step 2 *)

Lemma step2_loop_star_all (items : list ((nat * nat) * Z))
    (self : ReducedMunkres) :
  step2_loop items self
  = star_all (filter (fun iv : (nat * nat) * Z => iv.2 = 0%Z) items).*1 self.
Proof.
  revert self. induction items as [|[pos value] items IH]; intros self;
    simpl; [done|].
  rewrite filter_cons. simpl.
  destruct (Z.eqb_spec value 0) as [->|Hne].
  - rewrite decide_True by done. simpl.
    destruct (star self pos) as [self'|]; simpl; [apply IH|done].
  - rewrite decide_False by done. apply IH.
Qed.

Lemma star_frame (self self' : ReducedMunkres) (pos : nat * nat) :
  wf_state self -> star self pos = Ok self' ->
  n self' = n self /\ m self' = m self /\ costMat self' = costMat self.
Proof.
  intros Hwf Hstar.
  by destruct (star_cases _ _ _ Hwf Hstar) as [_ [->|(_ & a & _ & ->)]].
Qed.

Lemma star_all_Ok (poss : list (nat * nat)) (self : ReducedMunkres) :
  wf_state self ->
  (forall p, p ∈ poss -> p.1 < n self /\ p.2 < m self) ->
  exists self', star_all poss self = Ok self'.
Proof.
  revert self. induction poss as [|pos poss IH]; intros self Hwf Hin; simpl.
  - by exists self.
  - destruct (Hin pos) as [Hr Hc]; [by left|].
    destruct (star_spec self pos Hwf Hr Hc) as (self1 & Hs & Hwf1 & _).
    rewrite Hs. simpl.
    destruct (star_frame _ _ _ Hwf Hs) as (Hn & Hm & _).
    apply IH; [done|]. intros p Hp. rewrite Hn, Hm. apply Hin. by right.
Qed.

Lemma elem_of_zero_cells (a : ndarray Z) (r c : nat) :
  (r, c) ∈ zero_cells a <-> cell a r c = Some 0%Z.
Proof.
  unfold zero_cells. rewrite list_elem_of_fmap. split.
  - intros ([p v] & Hp & Hin). simpl in Hp. subst p.
    apply list_elem_of_filter in Hin as [Hv Hin]. simpl in Hv. subst v.
    by apply elem_of_ndenumerate in Hin.
  - intros Hcell. exists ((r, c), 0%Z). split; [done|].
    apply list_elem_of_filter. split; [done|]. by apply elem_of_ndenumerate.
Qed.

Lemma filter_fst_sorted {A} (P : (nat * nat) * A -> Prop)
    `{!forall x, Decision (P x)} (l : list ((nat * nat) * A)) :
  StronglySorted (fun x y : (nat * nat) * A => scan_lt x.1 y.1) l ->
  StronglySorted scan_lt (filter P l).*1.
Proof.
  induction 1 as [|x l Hl IH Hx]; simpl; [constructor|].
  rewrite filter_cons. destruct (decide (P x)); [|done].
  simpl. constructor; [done|].
  apply Forall_forall. intros q Hq.
  apply list_elem_of_fmap in Hq as (y & -> & Hy).
  apply list_elem_of_filter in Hy as [_ Hy].
  rewrite Forall_forall in Hx. by apply Hx.
Qed.

Lemma zero_cells_sorted (a : ndarray Z) :
  StronglySorted scan_lt (zero_cells a).
Proof. apply filter_fst_sorted, ndenumerate_sorted. Qed.

(** C3, as the code has it: on a well-formed solver [step2] returns 3 after
    calling [star] on the zero cells of the cost matrix, all of them and in
    row-major order.  [star] stars a cell exactly when no other cell of its
    row and none of its column is starred at that moment; the zeros of the
    matrix play no part in it.  The independence test [_isIndependent],
    which [step2] does not call, accepts every cell of the virtual row, and
    a cell of another row exactly when its row and its column hold no other
    zero. *)
Theorem step2_stars_by_star_pattern (self : ReducedMunkres) :
  wf_state self ->
  (exists self', step2 self = Ok (self', RInt 3) /\
     star_all (zero_cells (costMat self)) self = Ok self' /\
     wf_state self') /\
  (forall r c, (r, c) ∈ zero_cells (costMat self) <->
     cell (costMat self) r c = Some 0%Z) /\
  StronglySorted scan_lt (zero_cells (costMat self)) /\
  (forall pos, pos.1 < n self -> pos.2 < m self ->
     exists self1, star self pos = Ok self1 /\
       (no_other_star self pos ->
          cell (starred self1) pos.1 pos.2 = Some true) /\
       (~ no_other_star self pos -> self1 = self)) /\
  (forall pos, pos.1 < n self -> pos.2 < m self ->
     exists b, _isIndependent self pos = Ok b /\
       (b = true <-> is_virtual self pos.1 \/ no_other_zero self pos)).
Proof.
  intros Hwf. split; [|split; [|split; [|split]]].
  - destruct (star_all_Ok (zero_cells (costMat self)) self Hwf)
      as [self' Hall].
    { intros [r c] Hp. apply elem_of_zero_cells in Hp.
      destruct Hwf as ((Hsh & Hwfc) & _).
      apply (cell_Some_lt _ _ _ _ Hwfc) in Hp. by rewrite Hsh in Hp. }
    exists self'. unfold step2. rewrite step2_loop_star_all.
    fold (zero_cells (costMat self)). rewrite Hall.
    split; [done|]. split; [done|].
    by destruct (star_all_keeps _ _ _ Hwf Hall).
  - intros r c. apply elem_of_zero_cells.
  - apply zero_cells_sorted.
  - intros pos Hr Hc.
    destruct (star_spec self pos Hwf Hr Hc)
      as (self1 & Hs & _ & Hyes & Hno).
    exists self1. split; [done|]. split; [|done].
    intros Hfree. destruct (Hyes Hfree) as (a & Ha & ->). simpl.
    rewrite (setitem_cell _ _ _ _ _ _ Ha). by rewrite decide_True.
  - intros pos Hr Hc. by apply isIndependent_spec.
Qed.

Lemma step2_stars_by_star_pattern_witness :
  (exists self', step2 scenario_solver = Ok (self', RInt 3) /\
     star_all (zero_cells (costMat scenario_solver)) scenario_solver
       = Ok self' /\
     wf_state self') /\
  (forall r c, (r, c) ∈ zero_cells (costMat scenario_solver) <->
     cell (costMat scenario_solver) r c = Some 0%Z) /\
  StronglySorted scan_lt (zero_cells (costMat scenario_solver)) /\
  (forall pos, pos.1 < n scenario_solver -> pos.2 < m scenario_solver ->
     exists self1, star scenario_solver pos = Ok self1 /\
       (no_other_star scenario_solver pos ->
          cell (starred self1) pos.1 pos.2 = Some true) /\
       (~ no_other_star scenario_solver pos -> self1 = scenario_solver)) /\
  (forall pos, pos.1 < n scenario_solver -> pos.2 < m scenario_solver ->
     exists b, _isIndependent scenario_solver pos = Ok b /\
       (b = true <->
        is_virtual scenario_solver pos.1 \/
        no_other_zero scenario_solver pos)).
Proof.
  apply (step2_stars_by_star_pattern scenario_solver).
  apply scenario_solver_wf.
Defined.

(** C3, as the claim has it, fails on a matrix whose real row holds two
    zeros: the independence test rejects the first of them, and [step2]
    stars it all the same. *)
Lemma step2_stars_dependent_zero :
  exists self self',
    __init__ shared_row = Ok self /\ ~ is_virtual self 0 /\
    _isIndependent self (0, 0) = Ok false /\
    step2 self = Ok (self', RInt 3) /\
    cell (starred self') 0 0 = Some true.
Proof.
  eexists _, _. split; [reflexivity|]. split; [unfold is_virtual; simpl; lia|].
  split; [reflexivity|]. split; [reflexivity|]. reflexivity.
Qed.

(** ** Step 3 *)

Lemma step3_raises (self : ReducedMunkres) :
  ndenumerate (starred self) <> [] ->
  step3 self
  = Raise (ValueError "not enough values to unpack (expected 3)").
Proof.
  unfold step3, ndenumerate_obj.
  by destruct (ndenumerate (starred self)) as [|[[r c] v] items].
Qed.

(** C5: on the scenario with a star at the first cell of the virtual row and
    no column covered, [step3] raises on unpacking the first pair that
    [np.ndenumerate] yields into three names: it covers no column and does
    not return 4. *)
Theorem step3_scenario_raises :
  wf_state scenario_starred /\
  cell (starred scenario_starred) 2 0 = Some true /\
  col_covered scenario_starred = [false; false; false] /\
  step3 scenario_starred
  = Raise (ValueError "not enough values to unpack (expected 3)").
Proof.
  split; [apply scenario_starred_wf|]. split; [reflexivity|].
  split; [reflexivity|]. reflexivity.
Qed.

(** ** Step 4 *)

Lemma count_false_le (l : list bool) : count_false l <= length l.
Proof. apply length_filter. Qed.

Lemma count_false_cover (l : list bool) (r : nat) :
  l !! r = Some false -> count_false (<[r := true]> l) < count_false l.
Proof.
  unfold count_false. revert r. induction l as [|b l IH]; intros r; [done|].
  destruct r as [|r]; simpl.
  - intros [= ->]. rewrite filter_cons_False by done.
    rewrite filter_cons_True by done. simpl. lia.
  - intros Hr. specialize (IH r Hr). rewrite !filter_cons.
    destruct (decide (b = false)); simpl; lia.
Qed.

Lemma step4_body_covers (self self' : ReducedMunkres) (step step' : Z) :
  step4_body self step = Ok (self', step', false) ->
  exists r, row_covered self !! r = Some false /\
    row_covered self' = <[r := true]> (row_covered self).
Proof.
  unfold step4_body, mbind, result_bind.
  repeat match goal with
  | |- context [match ?x with Ok _ => _ | Raise _ => _ end] =>
      destruct x eqn:?; simpl; try done
  | |- context [match ?x with Some _ => _ | None => _ end] =>
      destruct x eqn:?; simpl; try done
  | |- context [if ?b then _ else _] => destruct b eqn:?; simpl; try done
  end.
  intros [= <- <-]. simpl.
  match goal with
  | Hget : list_getitem (row_covered self) ?i = Ok ?b,
    Hset : list_setitem (row_covered self) ?i true = Ok ?l,
    Hb : negb (bool_decide (?b = false)) = false |- _ =>
      exists i; unfold list_getitem in Hget; unfold list_setitem in Hset;
      apply negb_false_iff, bool_decide_eq_true in Hb; subst b;
      destruct (row_covered self !! i) as [b'|]; [|done];
      injection Hget as ->; case_decide; [|done]; by injection Hset as <-
  end.
Qed.

Lemma step4_while_total (fuel : nat) (self : ReducedMunkres) (step : Z)
    (done : bool) :
  count_false (row_covered self) < fuel ->
  step4_while fuel self step done <> None.
Proof.
  revert self step done. induction fuel as [|fuel IH];
    intros self step done Hlt; [lia|].
  simpl. destruct done; [done|].
  destruct (step4_body self step) as [[[self' step'] done']|] eqn:Hbody;
    [|done].
  destruct done'; [by destruct fuel|].
  apply IH. apply step4_body_covers in Hbody as (r & Hr & ->).
  pose proof (count_false_cover _ _ Hr). lia.
Qed.

(** [step4] always comes back, and never with a value. *)
Lemma step4_total (self : ReducedMunkres) : step4 self <> None.
Proof.
  unfold step4.
  pose proof (step4_while_total (S (length (row_covered self))) self 0%Z false)
    as Htotal.
  destruct (step4_while _ _ _ _) as [[[self' step]|e]|]; [done|done|].
  exfalso. apply Htotal; [|done].
  pose proof (count_false_le (row_covered self)). lia.
Qed.

Lemma step4_returns_None (self self' : ReducedMunkres) (ret : retval) :
  step4 self = Some (Ok (self', ret)) -> ret = RNone.
Proof.
  unfold step4.
  destruct (step4_while _ _ _ _) as [[[self1 step]|e]|]; [|done|done].
  by intros [= _ <-].
Qed.

(** C4: the local [step] of [step4] is set as the claim has it, to 6 on the
    solver of a matrix without a zero and to 5 on the solver of the
    scenario, where the last uncovered zero, in a row without a star, is
    primed and recorded as Z1; but [step4] has no [return], and hands back
    [None] in both cases, where [step1], [step2] and [step3] hand back the
    number of the next step. *)
Theorem step4_reports_nothing :
  _findUncovZero lone_solver = Ok None /\
  step4_while 2 lone_solver 0%Z false = Some (Ok (lone_solver, 6%Z)) /\
  step4 lone_solver = Some (Ok (lone_solver, RNone)) /\
  _findUncovZero scenario_solver = Ok (Some (2, 2)) /\
  _findStarInRow scenario_solver 2 = Ok (-1)%Z /\
  exists self',
    step4_while 4 scenario_solver 0%Z false = Some (Ok (self', 5%Z)) /\
    cell (primed self') 2 2 = Some true /\
    z1_r self' = Some 2 /\ z1_c self' = Some 2 /\
    step4 scenario_solver = Some (Ok (self', RNone)).
Proof.
  split; [reflexivity|]. split; [reflexivity|]. split; [reflexivity|].
  split; [reflexivity|]. split; [reflexivity|].
  eexists. split; [reflexivity|]. split; [reflexivity|].
  split; [reflexivity|]. split; reflexivity.
Qed.

(** ** The first star of a row or of a column *)

Lemma first_true_cases (i : nat) (l : list bool) :
  (first_true i l = (-1)%Z /\ forall k, l !! k <> Some true) \/
  (exists k, first_true i l = Z.of_nat (i + k) /\ l !! k = Some true /\
     forall k', k' < k -> l !! k' = Some false).
Proof.
  revert i. induction l as [|b l IH]; intros i; simpl.
  - left. split; [done|]. intros k. by rewrite lookup_nil.
  - destruct b.
    + right. exists 0. rewrite Nat.add_0_r. split; [done|]. split; [done|].
      intros k' Hk'. lia.
    + destruct (IH (S i)) as [[Hnone Hall]|(k & Hk & Hl & Hbefore)].
      * left. split; [done|]. intros [|k]; [done|]. apply Hall.
      * right. exists (S k). split; [rewrite Hk; f_equal; lia|].
        split; [done|]. intros [|k'] Hk'; [done|]. apply Hbefore. lia.
Qed.

Lemma getrow_cell {A} (a : ndarray A) (row : nat) (l : list A) :
  getrow a row = Ok l -> forall c, cell a row c = l !! c.
Proof.
  unfold getrow, cell. destruct (data a !! row); [|done]. by intros [= ->].
Qed.

Lemma getrow_Ok {A} (a : ndarray A) (row : nat) :
  wf_ndarray a -> row < (shape a).1 ->
  exists l, getrow a row = Ok l /\ length l = (shape a).2.
Proof.
  intros [Hlen Hrows] Hr. unfold getrow.
  destruct (lookup_lt_is_Some_2 (data a) row) as [l Hl]; [lia|].
  rewrite Hl. exists l. split; [done|].
  rewrite Forall_forall in Hrows. apply Hrows. by eapply list_elem_of_lookup_2.
Qed.

Lemma getrow_Raise {A} (a : ndarray A) (row : nat) :
  wf_ndarray a -> (shape a).1 <= row -> getrow a row = Raise IndexError.
Proof.
  intros [Hlen _] Hr. unfold getrow.
  rewrite lookup_ge_None_2; [done|lia].
Qed.

Lemma getcol_cell {A} (a : ndarray A) (col : nat) :
  wf_ndarray a -> col < (shape a).2 ->
  exists l, getcol a col = Ok l /\ length l = (shape a).1 /\
    forall r, cell a r col = l !! r.
Proof.
  intros [Hlen Hrows] Hc. unfold getcol, cell. rewrite decide_True by done.
  eexists. split; [done|]. rewrite <- Hlen. clear Hlen.
  induction (data a) as [|row ll IH]; simpl.
  - split; [done|]. intros r. by rewrite !lookup_nil.
  - apply Forall_cons in Hrows as [Hrow Hrows].
    destruct (lookup_lt_is_Some_2 row col) as [x Hx]; [lia|].
    rewrite Hx. simpl. destruct (IH Hrows) as [IHlen IHcell].
    split; [by f_equal|]. intros [|r]; simpl; [done|]. apply IHcell.
Qed.

(** What the three searches share: the index handed back is [-1] when the
    line holds no [True], and otherwise that of its first [True]. *)
Lemma first_true_line (l : list bool) (bound : nat) :
  length l = bound ->
  (first_true 0 l = (-1)%Z <-> forall k, l !! k <> Some true) /\
  (forall k, first_true 0 l = Z.of_nat k ->
     l !! k = Some true /\ forall k', k' < k -> l !! k' = Some false) /\
  (first_true 0 l = (-1)%Z \/
   (0 <= first_true 0 l < Z.of_nat bound)%Z).
Proof.
  intros Hlen.
  destruct (first_true_cases 0 l) as [[Hnone Hall]|(k & Hk & Hl & Hbefore)].
  - rewrite Hnone. split; [done|]. split; [|by left]. intros k Hk. lia.
  - simpl in Hk. rewrite Hk. split; [|split].
    + split; [lia|]. intros Hall. by destruct (Hall k).
    + intros k' Hk'. apply Nat2Z.inj in Hk'. by subst k'.
    + right. apply lookup_lt_Some in Hl. lia.
Qed.

(** X1: on a well-formed solver [_findStarInRow] raises [IndexError] for a
    row outside the grid; for a row of the grid it returns [-1] exactly when
    the row holds no star, and otherwise the column of the first star of the
    row, every cell before it being unstarred. *)
Theorem findStarInRow_first_star (self : ReducedMunkres) (row : nat) :
  wf_state self ->
  (n self <= row -> _findStarInRow self row = Raise IndexError) /\
  (row < n self -> exists z, _findStarInRow self row = Ok z /\
     (z = (-1)%Z <-> forall c, cell (starred self) row c <> Some true) /\
     (forall c, z = Z.of_nat c ->
        cell (starred self) row c = Some true /\
        forall c', c' < c -> cell (starred self) row c' = Some false) /\
     (z = (-1)%Z \/ (0 <= z < Z.of_nat (m self))%Z)).
Proof.
  intros (_ & (Hsh & Hwf) & _). unfold _findStarInRow. split; intros Hr.
  - rewrite getrow_Raise; [done|done|]. by rewrite Hsh.
  - destruct (getrow_Ok (starred self) row Hwf) as (l & Hl & Hlen);
      [by rewrite Hsh|].
    rewrite Hsh in Hlen. simpl in Hlen. rewrite Hl. simpl.
    exists (first_true 0 l). split; [done|].
    destruct (first_true_line l (m self) Hlen) as (Hnone & Hfirst & Hbound).
    split; [|split; [|done]].
    + rewrite Hnone. split; intros H c; [rewrite (getrow_cell _ _ _ Hl)|
        rewrite <- (getrow_cell _ _ _ Hl)]; apply H.
    + intros c Hc. destruct (Hfirst c Hc) as [Hstar Hbefore].
      split; [by rewrite (getrow_cell _ _ _ Hl)|].
      intros c' Hc'. rewrite (getrow_cell _ _ _ Hl). by apply Hbefore.
Qed.

Lemma findStarInRow_first_star_witness :
  (n scenario_starred <= 2 ->
     _findStarInRow scenario_starred 2 = Raise IndexError) /\
  (2 < n scenario_starred ->
     exists z, _findStarInRow scenario_starred 2 = Ok z /\
       (z = (-1)%Z <->
        forall c, cell (starred scenario_starred) 2 c <> Some true) /\
       (forall c, z = Z.of_nat c ->
          cell (starred scenario_starred) 2 c = Some true /\
          forall c', c' < c ->
            cell (starred scenario_starred) 2 c' = Some false) /\
       (z = (-1)%Z \/ (0 <= z < Z.of_nat (m scenario_starred))%Z)).
Proof.
  apply (findStarInRow_first_star scenario_starred 2).
  apply scenario_starred_wf.
Defined.

(** X2: on a well-formed solver [_findStarInCol] raises [IndexError] for a
    column outside the grid; for a column of the grid it returns [-1]
    exactly when the column holds no star, and otherwise the row of the
    first star of the column, every cell above it being unstarred. *)
Theorem findStarInCol_first_star (self : ReducedMunkres) (col : nat) :
  wf_state self ->
  (m self <= col -> _findStarInCol self col = Raise IndexError) /\
  (col < m self -> exists z, _findStarInCol self col = Ok z /\
     (z = (-1)%Z <-> forall r, cell (starred self) r col <> Some true) /\
     (forall r, z = Z.of_nat r ->
        cell (starred self) r col = Some true /\
        forall r', r' < r -> cell (starred self) r' col = Some false) /\
     (z = (-1)%Z \/ (0 <= z < Z.of_nat (n self))%Z)).
Proof.
  intros (_ & (Hsh & Hwf) & _). unfold _findStarInCol. split; intros Hc.
  - unfold getcol. rewrite Hsh. simpl. rewrite decide_False; [done|lia].
  - destruct (getcol_cell (starred self) col Hwf) as (l & Hl & Hlen & Hcell);
      [by rewrite Hsh|].
    rewrite Hsh in Hlen. simpl in Hlen. rewrite Hl. simpl.
    exists (first_true 0 l). split; [done|].
    destruct (first_true_line l (n self) Hlen) as (Hnone & Hfirst & Hbound).
    split; [|split; [|done]].
    + rewrite Hnone. split; intros H r; [rewrite Hcell|rewrite <- Hcell];
        apply H.
    + intros r Hr. destruct (Hfirst r Hr) as [Hstar Hbefore].
      split; [by rewrite Hcell|].
      intros r' Hr'. rewrite Hcell. by apply Hbefore.
Qed.

Lemma findStarInCol_first_star_witness :
  (m scenario_starred <= 0 ->
     _findStarInCol scenario_starred 0 = Raise IndexError) /\
  (0 < m scenario_starred ->
     exists z, _findStarInCol scenario_starred 0 = Ok z /\
       (z = (-1)%Z <->
        forall r, cell (starred scenario_starred) r 0 <> Some true) /\
       (forall r, z = Z.of_nat r ->
          cell (starred scenario_starred) r 0 = Some true /\
          forall r', r' < r ->
            cell (starred scenario_starred) r' 0 = Some false) /\
       (z = (-1)%Z \/ (0 <= z < Z.of_nat (n scenario_starred))%Z)).
Proof.
  apply (findStarInCol_first_star scenario_starred 0).
  apply scenario_starred_wf.
Defined.

(** X3: on a well-formed solver [_findPrimeInRow] raises [IndexError] for a
    row outside the grid; for a row of the grid it returns [-1] exactly when
    the row holds no prime, and otherwise the column of the first prime of
    the row. *)
Theorem findPrimeInRow_first_prime (self : ReducedMunkres) (row : nat) :
  wf_state self ->
  (n self <= row -> _findPrimeInRow self row = Raise IndexError) /\
  (row < n self -> exists z, _findPrimeInRow self row = Ok z /\
     (z = (-1)%Z <-> forall c, cell (primed self) row c <> Some true) /\
     (forall c, z = Z.of_nat c ->
        cell (primed self) row c = Some true /\
        forall c', c' < c -> cell (primed self) row c' = Some false) /\
     (z = (-1)%Z \/ (0 <= z < Z.of_nat (m self))%Z)).
Proof.
  intros (_ & _ & (Hsh & Hwf) & _). unfold _findPrimeInRow.
  split; intros Hr.
  - rewrite getrow_Raise; [done|done|]. by rewrite Hsh.
  - destruct (getrow_Ok (primed self) row Hwf) as (l & Hl & Hlen);
      [by rewrite Hsh|].
    rewrite Hsh in Hlen. simpl in Hlen. rewrite Hl. simpl.
    exists (first_true 0 l). split; [done|].
    destruct (first_true_line l (m self) Hlen) as (Hnone & Hfirst & Hbound).
    split; [|split; [|done]].
    + rewrite Hnone. split; intros H c; [rewrite (getrow_cell _ _ _ Hl)|
        rewrite <- (getrow_cell _ _ _ Hl)]; apply H.
    + intros c Hc. destruct (Hfirst c Hc) as [Hstar Hbefore].
      split; [by rewrite (getrow_cell _ _ _ Hl)|].
      intros c' Hc'. rewrite (getrow_cell _ _ _ Hl). by apply Hbefore.
Qed.

Lemma scenario_primed_prime :
  prime scenario_solver (2, 2) = Ok scenario_primed.
Proof. reflexivity. Qed.

Lemma scenario_primed_wf : wf_state scenario_primed.
Proof.
  destruct scenario_solver_wf as (Hc & Hs & _ & Hr & Hl).
  split; [done|]. split; [done|]. split; [|done].
  split; [done|]. split; [done|]. repeat constructor.
Qed.

Lemma findPrimeInRow_first_prime_witness :
  (n scenario_primed <= 2 ->
     _findPrimeInRow scenario_primed 2 = Raise IndexError) /\
  (2 < n scenario_primed ->
     exists z, _findPrimeInRow scenario_primed 2 = Ok z /\
       (z = (-1)%Z <->
        forall c, cell (primed scenario_primed) 2 c <> Some true) /\
       (forall c, z = Z.of_nat c ->
          cell (primed scenario_primed) 2 c = Some true /\
          forall c', c' < c ->
            cell (primed scenario_primed) 2 c' = Some false) /\
       (z = (-1)%Z \/ (0 <= z < Z.of_nat (m scenario_primed))%Z)).
Proof.
  apply (findPrimeInRow_first_prime scenario_primed 2).
  apply scenario_primed_wf.
Defined.

(** ** [prime] and [mark] *)

Lemma setitem_Raise {A} (a : ndarray A) (pos : nat * nat) (v : A) :
  wf_ndarray a -> ~ (pos.1 < (shape a).1 /\ pos.2 < (shape a).2) ->
  setitem a pos v = Raise IndexError.
Proof.
  intros Hwf Hout.
  destruct (setitem a pos v) as [a'|e] eqn:Hset.
  - exfalso. apply Hout. by eapply setitem_Ok_inv.
  - revert Hset. unfold setitem. destruct (data a !! pos.1); [|congruence].
    case_decide; [done|congruence].
Qed.

Lemma setitem_same {A} (a : ndarray A) (pos : nat * nat) (v : A) :
  cell a pos.1 pos.2 = Some v -> setitem a pos v = Ok a.
Proof.
  unfold cell, setitem. destruct (data a !! pos.1) as [row|] eqn:Hrow; [|done].
  intros Hv. rewrite decide_True by (by eapply lookup_lt_Some).
  rewrite (list_insert_id row) by done. rewrite list_insert_id by done.
  by destruct a.
Qed.

Lemma setitem_spec {A} (a : ndarray A) (sh : nat * nat) (pos : nat * nat)
    (v : A) :
  shape a = sh -> wf_ndarray a ->
  (pos.1 < sh.1 -> pos.2 < sh.2 ->
     exists a', setitem a pos v = Ok a' /\ shape a' = sh /\ wf_ndarray a' /\
       setitem a' pos v = Ok a' /\
       cell a' pos.1 pos.2 = Some v /\
       forall r c, (r, c) <> pos -> cell a' r c = cell a r c) /\
  (~ (pos.1 < sh.1 /\ pos.2 < sh.2) -> setitem a pos v = Raise IndexError).
Proof.
  intros <- Hwf. split.
  - intros Hr Hc. destruct (setitem_Ok a pos v Hwf Hr Hc) as [a' Ha].
    exists a'. split; [done|]. split; [by eapply setitem_shape|].
    split; [by eapply setitem_wf|].
    assert (Hcell : cell a' pos.1 pos.2 = Some v).
    { rewrite (setitem_cell _ _ _ _ _ _ Ha). by rewrite decide_True. }
    split; [by apply setitem_same|]. split; [done|].
    intros r c Hne. rewrite (setitem_cell _ _ _ _ _ _ Ha).
    rewrite decide_False; [done|]. intros [-> ->]. by destruct pos.
  - by apply setitem_Raise.
Qed.

Lemma set_primed_same (self : ReducedMunkres) :
  set_primed self (primed self) = self.
Proof. by destruct self. Qed.

Lemma set_starred_same (self : ReducedMunkres) :
  set_starred self (starred self) = self.
Proof. by destruct self. Qed.

Lemma set_marked_same (self : ReducedMunkres) :
  set_marked self (marked self) = self.
Proof. by destruct self. Qed.

(** X4: on a well-formed solver [prime] at a cell of the grid sets that
    cell of the prime grid, changes no other cell and no other field, and
    priming the cell again changes nothing; at a position outside the grid
    it raises [IndexError]. *)
Theorem prime_sets_one_cell (self : ReducedMunkres) (pos : nat * nat) :
  wf_state self ->
  (pos.1 < n self -> pos.2 < m self ->
     exists self', prime self pos = Ok self' /\ wf_state self' /\
       self' = set_primed self (primed self') /\
       cell (primed self') pos.1 pos.2 = Some true /\
       (forall r c, (r, c) <> pos ->
          cell (primed self') r c = cell (primed self) r c) /\
       prime self' pos = Ok self') /\
  (~ (pos.1 < n self /\ pos.2 < m self) -> prime self pos = Raise IndexError).
Proof.
  intros (Hc & Hs & (Hsh & Hwf) & Hrc & Hcc).
  destruct (setitem_spec (primed self) _ pos true Hsh Hwf) as [Hin Hout].
  unfold prime. split.
  - intros Hr Hcl.
    destruct (Hin Hr Hcl) as (a & Ha & Hsha & Hwfa & Hagain & Hcell & Hrest).
    rewrite Ha. simpl. exists (set_primed self a).
    split; [done|]. split; [unfold wf_state; simpl; tauto|]. split; [done|].
    split; [done|]. split; [done|].
    unfold prime. cbn [primed set_primed]. by rewrite Hagain.
  - intros Hno. by rewrite (Hout Hno).
Qed.

Lemma prime_sets_one_cell_witness :
  (2 < n scenario_solver -> 2 < m scenario_solver ->
     exists self', prime scenario_solver (2, 2) = Ok self' /\
       wf_state self' /\
       self' = set_primed scenario_solver (primed self') /\
       cell (primed self') 2 2 = Some true /\
       (forall r c, (r, c) <> (2, 2) ->
          cell (primed self') r c = cell (primed scenario_solver) r c) /\
       prime self' (2, 2) = Ok self') /\
  (~ (2 < n scenario_solver /\ 2 < m scenario_solver) ->
     prime scenario_solver (2, 2) = Raise IndexError).
Proof.
  apply (prime_sets_one_cell scenario_solver (2, 2)).
  apply scenario_solver_wf.
Defined.

(** X5: on a solver whose grid of marks has the shape of the matrix [mark]
    at a cell of the grid sets that cell of the grid of marks, changes no
    other cell and no other field, and marking the cell again changes
    nothing; at a position outside the grid it raises [IndexError]. *)
Theorem mark_sets_one_cell (self : ReducedMunkres) (pos : nat * nat) :
  wf_marked self ->
  (pos.1 < n self -> pos.2 < m self ->
     exists self', mark self pos = Ok self' /\ wf_marked self' /\
       self' = set_marked self (marked self') /\
       cell (marked self') pos.1 pos.2 = Some true /\
       (forall r c, (r, c) <> pos ->
          cell (marked self') r c = cell (marked self) r c) /\
       mark self' pos = Ok self') /\
  (~ (pos.1 < n self /\ pos.2 < m self) -> mark self pos = Raise IndexError).
Proof.
  intros (Hsh & Hwf).
  destruct (setitem_spec (marked self) _ pos true Hsh Hwf) as [Hin Hout].
  unfold mark. split.
  - intros Hr Hcl.
    destruct (Hin Hr Hcl) as (a & Ha & Hsha & Hwfa & Hagain & Hcell & Hrest).
    rewrite Ha. simpl. exists (set_marked self a).
    split; [done|]. split; [by split|]. split; [done|].
    split; [done|]. split; [done|].
    unfold mark. cbn [marked set_marked]. by rewrite Hagain.
  - intros Hno. by rewrite (Hout Hno).
Qed.

Lemma mark_sets_one_cell_witness :
  (1 < n scenario_solver -> 0 < m scenario_solver ->
     exists self', mark scenario_solver (1, 0) = Ok self' /\
       wf_marked self' /\
       self' = set_marked scenario_solver (marked self') /\
       cell (marked self') 1 0 = Some true /\
       (forall r c, (r, c) <> (1, 0) ->
          cell (marked self') r c = cell (marked scenario_solver) r c) /\
       mark self' (1, 0) = Ok self') /\
  (~ (1 < n scenario_solver /\ 0 < m scenario_solver) ->
     mark scenario_solver (1, 0) = Raise IndexError).
Proof.
  apply (mark_sets_one_cell scenario_solver (1, 0)).
  split; [reflexivity|]. apply (wf_np_full (3, 3) false).
Defined.

(** ** More on [star] *)

Lemma scan_other_Raise (skip : nat) (test : nat -> result bool)
    (idxs : list nat) (flag : bool) (e : exn) :
  (forall k, k ∈ idxs -> k <> skip -> test k = Raise e) ->
  (exists k, k ∈ idxs /\ k <> skip) ->
  scan_other skip test idxs flag = Raise e.
Proof.
  induction idxs as [|k idxs IH]; intros Htest (k0 & Hin & Hne); simpl.
  - by apply not_elem_of_nil in Hin.
  - destruct (Nat.eqb_spec skip k) as [->|Hk]; simpl.
    + apply IH; [intros k' Hk'; apply Htest; by right|].
      exists k0. split; [|done].
      apply elem_of_cons in Hin as [->|Hin]; [done|done].
    + rewrite (Htest k); [done|by left|congruence].
Qed.

Lemma scan_other_exn (skip : nat) (test : nat -> result bool)
    (idxs : list nat) (flag : bool) (e0 e : exn) :
  (forall k e', test k = Raise e' -> e' = e0) ->
  scan_other skip test idxs flag = Raise e -> e = e0.
Proof.
  intros Htest. induction idxs as [|k idxs IH]; simpl; [done|].
  destruct (negb (skip =? k)); [|done].
  destruct (test k) as [[]|e'] eqn:Hk; simpl; [done|done|].
  intros [= <-]. by eapply Htest.
Qed.

Lemma getitem_exn {A} (a : ndarray A) (pos : nat * nat) (e : exn) :
  getitem a pos = Raise e -> e = IndexError.
Proof. unfold getitem. destruct (cell a pos.1 pos.2); congruence. Qed.

Lemma setitem_exn {A} (a : ndarray A) (pos : nat * nat) (v : A) (e : exn) :
  setitem a pos v = Raise e -> e = IndexError.
Proof.
  unfold setitem. destruct (data a !! pos.1); [|congruence].
  case_decide; congruence.
Qed.

Lemma star_exn (self : ReducedMunkres) (pos : nat * nat) (e : exn) :
  star self pos = Raise e -> e = IndexError.
Proof.
  unfold star.
  destruct (scan_other pos.2 _ _ _) as [b1|e1] eqn:H1; simpl.
  - destruct (scan_other pos.1 _ _ _) as [[]|e2] eqn:H2; simpl; [|done|].
    + destruct (setitem _ _ _) as [a|e3] eqn:H3; simpl; [done|].
      intros [= <-]. by eapply setitem_exn.
    + intros [= <-]. eapply scan_other_exn; [|exact H2].
      intros k e'. apply getitem_exn.
  - intros [= <-]. eapply scan_other_exn; [|exact H1].
    intros k e'. apply getitem_exn.
Qed.

Lemma cell_None_ge {A} (a : ndarray A) (r c : nat) :
  wf_ndarray a -> ~ (r < (shape a).1 /\ c < (shape a).2) -> cell a r c = None.
Proof.
  intros Hwf Hout. destruct (cell a r c) as [x|] eqn:Hx; [|done].
  exfalso. apply Hout. by eapply cell_Some_lt.
Qed.

Lemma no_other_star_dec (self : ReducedMunkres) (pos : nat * nat) :
  wf_state self -> no_other_star self pos \/ ~ no_other_star self pos.
Proof.
  intros Hwf. pose proof (no_other_star_b self pos Hwf) as Hb.
  destruct (forallb _ (seq 0 (m self)) && forallb _ (seq 0 (n self))).
  - left. by apply Hb.
  - right. intros H. apply Hb in H. done.
Qed.

Lemma star_grid (self self' : ReducedMunkres) (pos : nat * nat) :
  wf_state self -> star self pos = Ok self' ->
  self' = set_starred self (starred self') /\
  (forall r c, cell (starred self) r c = Some true ->
     cell (starred self') r c = Some true) /\
  (forall r c, (r, c) <> pos ->
     cell (starred self') r c = cell (starred self) r c).
Proof.
  intros Hwf Hstar.
  destruct (star_cases _ _ _ Hwf Hstar) as [_ [->|(_ & a & Ha & ->)]].
  - by rewrite set_starred_same.
  - split; [done|]. simpl. split.
    + intros r c Hrc. rewrite (setitem_cell _ _ _ _ _ _ Ha).
      by case_decide.
    + intros r c Hne. rewrite (setitem_cell _ _ _ _ _ _ Ha).
      rewrite decide_False; [done|]. intros [-> ->]. by destruct pos.
Qed.

Lemma star_again (self self' : ReducedMunkres) (pos : nat * nat) :
  wf_state self -> star self pos = Ok self' -> star self' pos = Ok self'.
Proof.
  intros Hwf Hstar.
  destruct (star_cases _ _ _ Hwf Hstar)
    as [Hwf' [->|([Hrow Hcol] & a & Ha & ->)]]; [done|].
  assert (Hin : pos.1 < n self /\ pos.2 < m self).
  { destruct Hwf as (_ & (Hsh & Hwfs) & _).
    apply (setitem_Ok_inv _ _ _ _ Hwfs) in Ha. by rewrite Hsh in Ha. }
  destruct Hin as [Hr Hc].
  destruct (star_spec (set_starred self a) pos Hwf' Hr Hc)
    as (self2 & Hs2 & _ & Hyes & _).
  rewrite Hs2. f_equal.
  assert (Hcell : cell a pos.1 pos.2 = Some true).
  { rewrite (setitem_cell _ _ _ _ _ _ Ha). by rewrite decide_True. }
  destruct Hyes as (a' & Ha' & ->).
  - split; simpl.
    + intros j Hj. rewrite (setitem_cell _ _ _ _ _ _ Ha).
      rewrite decide_False by tauto. by apply Hrow.
    + intros i Hi. rewrite (setitem_cell _ _ _ _ _ _ Ha).
      rewrite decide_False by tauto. by apply Hcol.
  - simpl in Ha'. rewrite (setitem_same a pos true Hcell) in Ha'.
    by injection Ha' as <-.
Qed.

(** X6: when [star] returns on a well-formed solver, calling it again at
    the same position changes nothing; it removes no star, changes no cell
    of the star grid but the one it is called at, and no other field. *)
Theorem star_idempotent_monotone (self self' : ReducedMunkres)
    (pos : nat * nat) :
  wf_state self -> star self pos = Ok self' ->
  star self' pos = Ok self' /\
  self' = set_starred self (starred self') /\
  (forall r c, cell (starred self) r c = Some true ->
     cell (starred self') r c = Some true) /\
  (forall r c, (r, c) <> pos ->
     cell (starred self') r c = cell (starred self) r c).
Proof.
  intros Hwf Hstar. split; [by eapply star_again|]. by eapply star_grid.
Qed.

Lemma star_idempotent_monotone_witness :
  star scenario_starred (2, 0) = Ok scenario_starred /\
  scenario_starred = set_starred scenario_solver (starred scenario_starred) /\
  (forall r c, cell (starred scenario_solver) r c = Some true ->
     cell (starred scenario_starred) r c = Some true) /\
  (forall r c, (r, c) <> (2, 0) ->
     cell (starred scenario_starred) r c = cell (starred scenario_solver) r c).
Proof.
  apply (star_idempotent_monotone scenario_solver scenario_starred (2, 0)).
  - apply scenario_solver_wf.
  - reflexivity.
Defined.

(** X7: on a well-formed solver [star] at a position outside the grid never
    changes the solver: it raises [IndexError] or returns the solver as it
    was; and it raises [IndexError] whenever the grid has two rows and two
    columns at least.  [star] raises nothing but [IndexError]. *)
Theorem star_out_of_range (self : ReducedMunkres) (pos : nat * nat) :
  wf_state self -> ~ (pos.1 < n self /\ pos.2 < m self) ->
  (star self pos = Raise IndexError \/ star self pos = Ok self) /\
  (2 <= n self -> 2 <= m self -> star self pos = Raise IndexError) /\
  (forall e, star self pos = Raise e -> e = IndexError).
Proof.
  intros Hwf Hout. split; [|split].
  - destruct (star self pos) as [self'|e] eqn:Hstar.
    + right. destruct (star_cases _ _ _ Hwf Hstar)
        as [_ [->|(_ & a & Ha & _)]]; [done|].
      exfalso. apply Hout. destruct Hwf as (_ & (Hsh & Hwfs) & _).
      apply (setitem_Ok_inv _ _ _ _ Hwfs) in Ha. by rewrite Hsh in Ha.
    + left. f_equal. by eapply star_exn.
  - intros Hn Hm. destruct Hwf as (_ & (Hsh & Hwfs) & _). unfold star.
    destruct (decide (pos.1 < n self)) as [Hr|Hr].
    + rewrite (scan_other_spec _ _ (cell_true (starred self) pos.1));
        last first.
      { intros j Hj _. apply elem_of_seq in Hj.
        apply (getitem_cell_true _ (n self, m self)); simpl;
          [done|done|lia|lia]. }
      simpl. rewrite (scan_other_Raise _ _ _ _ IndexError); [done| |].
      * intros i Hi Hne. unfold getitem. simpl.
        rewrite cell_None_ge; [done|done|]. rewrite Hsh. simpl. lia.
      * exists (if decide (pos.1 = 0) then 1 else 0).
        split; [apply elem_of_seq|]; case_decide; lia.
    + rewrite (scan_other_Raise _ _ _ _ IndexError); [done| |].
      * intros j Hj Hne. unfold getitem. simpl.
        rewrite cell_None_ge; [done|done|]. rewrite Hsh. simpl. lia.
      * exists (if decide (pos.2 = 0) then 1 else 0).
        split; [apply elem_of_seq|]; case_decide; lia.
  - intros e. apply star_exn.
Qed.

Lemma star_out_of_range_witness :
  (star scenario_solver (3, 0) = Raise IndexError \/
   star scenario_solver (3, 0) = Ok scenario_solver) /\
  (2 <= n scenario_solver -> 2 <= m scenario_solver ->
     star scenario_solver (3, 0) = Raise IndexError) /\
  (forall e, star scenario_solver (3, 0) = Raise e -> e = IndexError).
Proof.
  apply (star_out_of_range scenario_solver (3, 0)).
  - apply scenario_solver_wf.
  - simpl. lia.
Defined.

(** ** More on step 2 *)

Lemma star_all_post (poss : list (nat * nat)) (self self' : ReducedMunkres) :
  wf_state self ->
  (forall p, p ∈ poss -> p.1 < n self /\ p.2 < m self) ->
  star_all poss self = Ok self' ->
  self' = set_starred self (starred self') /\
  (forall r c, cell (starred self) r c = Some true ->
     cell (starred self') r c = Some true) /\
  (forall r c, cell (starred self') r c = Some true ->
     cell (starred self) r c = Some true \/ (r, c) ∈ poss) /\
  (forall p, p ∈ poss -> no_other_star self' p ->
     cell (starred self') p.1 p.2 = Some true).
Proof.
  revert self. induction poss as [|pos poss IH]; intros self Hwf Hin; simpl.
  - intros [= <-]. rewrite set_starred_same. split; [done|]. split; [done|].
    split; [by left|]. intros p Hp. by apply not_elem_of_nil in Hp.
  - destruct (star self pos) as [self1|] eqn:Hstar; [|done]. simpl.
    intros Hall.
    destruct (star_cases _ _ _ Hwf Hstar) as [Hwf1 _].
    destruct (star_frame _ _ _ Hwf Hstar) as (Hn & Hm & _).
    destruct (star_grid _ _ _ Hwf Hstar) as (Hframe1 & Hmono1 & Hrest1).
    destruct (IH self1 Hwf1) as (Hframe & Hmono & Hnew & Hmax); [|done|].
    { intros p Hp. rewrite Hn, Hm. apply Hin. by right. }
    split; [|split; [|split]].
    + rewrite Hframe. rewrite Hframe1 at 1. done.
    + intros r c Hrc. by apply Hmono, Hmono1.
    + intros r c Hrc. destruct (Hnew r c Hrc) as [H1|Hp]; [|right; by right].
      destruct (decide ((r, c) = pos)) as [<-|Hne]; [right; by left|].
      left. by rewrite <- (Hrest1 r c Hne).
    + intros p Hp Hfree. apply elem_of_cons in Hp as [->|Hp]; [|by apply Hmax].
      destruct (Hin pos) as [Hr Hc]; [by left|].
      destruct (star_spec self pos Hwf Hr Hc) as (s2 & Hs2 & _ & Hyes & _).
      rewrite Hstar in Hs2. injection Hs2 as <-.
      destruct Hyes as (a & Ha & ->).
      * destruct Hfree as [Hrow Hcol]. split.
        -- intros j Hj Hs. apply (Hrow j Hj). by apply Hmono, Hmono1.
        -- intros i Hi Hs. apply (Hcol i Hi). by apply Hmono, Hmono1.
      * apply Hmono. simpl. rewrite (setitem_cell _ _ _ _ _ _ Ha).
        by rewrite decide_True.
Qed.

Lemma zero_cells_in_range (self : ReducedMunkres) (p : nat * nat) :
  wf_state self -> p ∈ zero_cells (costMat self) ->
  p.1 < n self /\ p.2 < m self.
Proof.
  intros ((Hsh & Hwfc) & _) Hp. destruct p as [r c].
  apply elem_of_zero_cells in Hp.
  apply (cell_Some_lt _ _ _ _ Hwfc) in Hp. by rewrite Hsh in Hp.
Qed.

Lemma step2_star_all (self : ReducedMunkres) :
  wf_state self ->
  exists self', star_all (zero_cells (costMat self)) self = Ok self' /\
    step2 self = Ok (self', RInt 3).
Proof.
  intros Hwf.
  destruct (star_all_Ok (zero_cells (costMat self)) self Hwf) as [self' Hall].
  { intros p. by apply zero_cells_in_range. }
  exists self'. split; [done|]. unfold step2. rewrite step2_loop_star_all.
  fold (zero_cells (costMat self)). by rewrite Hall.
Qed.

(** X8: on a well-formed solver [step2] returns 3 and changes the star grid
    only.  It removes no star and adds stars on zeros of the cost matrix
    only; afterwards every zero whose row and column hold no other star is
    starred; and a grid with at most one star in each row and each column
    stays so. *)
Theorem step2_greedy_stars (self : ReducedMunkres) :
  wf_state self ->
  exists self', step2 self = Ok (self', RInt 3) /\ wf_state self' /\
    self' = set_starred self (starred self') /\
    (forall r c, cell (starred self) r c = Some true ->
       cell (starred self') r c = Some true) /\
    (forall r c, cell (starred self') r c = Some true ->
       cell (starred self) r c = Some true \/
       cell (costMat self) r c = Some 0%Z) /\
    (forall r c, cell (costMat self) r c = Some 0%Z ->
       no_other_star self' (r, c) -> cell (starred self') r c = Some true) /\
    (star_inv_all self -> star_inv_all self').
Proof.
  intros Hwf. destruct (step2_star_all self Hwf) as (self' & Hall & Hstep).
  exists self'. split; [done|].
  destruct (star_all_keeps _ _ _ Hwf Hall) as [Hwf' Hinv].
  destruct (star_all_post _ _ _ Hwf (fun p => zero_cells_in_range self p Hwf)
              Hall) as (Hframe & Hmono & Hnew & Hmax).
  split; [done|]. split; [done|]. split; [done|]. split; [|split; [|done]].
  - intros r c Hrc. destruct (Hnew r c Hrc) as [?|Hz]; [by left|].
    right. by apply elem_of_zero_cells.
  - intros r c Hz. apply (Hmax (r, c)). by apply elem_of_zero_cells.
Qed.

Lemma step2_greedy_stars_witness :
  exists self', step2 scenario_solver = Ok (self', RInt 3) /\
    wf_state self' /\
    self' = set_starred scenario_solver (starred self') /\
    (forall r c, cell (starred scenario_solver) r c = Some true ->
       cell (starred self') r c = Some true) /\
    (forall r c, cell (starred self') r c = Some true ->
       cell (starred scenario_solver) r c = Some true \/
       cell (costMat scenario_solver) r c = Some 0%Z) /\
    (forall r c, cell (costMat scenario_solver) r c = Some 0%Z ->
       no_other_star self' (r, c) -> cell (starred self') r c = Some true) /\
    (star_inv_all scenario_solver -> star_inv_all self').
Proof.
  apply (step2_greedy_stars scenario_solver). apply scenario_solver_wf.
Defined.

Lemma star_all_fixed (poss : list (nat * nat)) (self : ReducedMunkres) :
  (forall p, p ∈ poss -> star self p = Ok self) ->
  star_all poss self = Ok self.
Proof.
  induction poss as [|pos poss IH]; intros Hfix; simpl; [done|].
  rewrite (Hfix pos) by by left. simpl. apply IH.
  intros p Hp. apply Hfix. by right.
Qed.

(** X9: what [step2] returns on a well-formed solver is left as it is by a
    second [step2]. *)
Theorem step2_idempotent (self self1 : ReducedMunkres) (ret : retval) :
  wf_state self -> step2 self = Ok (self1, ret) ->
  step2 self1 = Ok (self1, RInt 3).
Proof.
  intros Hwf Hstep.
  destruct (step2_star_all self Hwf) as (self' & Hall & Hstep').
  rewrite Hstep in Hstep'. injection Hstep' as -> ->.
  destruct (star_all_keeps _ _ _ Hwf Hall) as [Hwf' _].
  destruct (star_all_post _ _ _ Hwf (fun p => zero_cells_in_range self p Hwf)
              Hall) as (Hframe & _ & _ & Hmax).
  assert (Hcost : costMat self' = costMat self) by by rewrite Hframe.
  destruct (step2_star_all self' Hwf') as (self2 & Hall2 & Hstep2).
  rewrite Hstep2. do 2 f_equal.
  rewrite star_all_fixed in Hall2; [by injection Hall2|].
  intros p Hp. rewrite Hcost in Hp.
  destruct (zero_cells_in_range self p Hwf Hp) as [Hr Hc].
  assert (Hn : n self' = n self) by by rewrite Hframe.
  assert (Hm : m self' = m self) by by rewrite Hframe.
  destruct (star_spec self' p Hwf') as (s3 & Hs3 & _ & Hyes & Hno);
    [lia|lia|].
  rewrite Hs3. f_equal.
  destruct (no_other_star_dec self' p Hwf') as [Hfree|Hblocked];
    [|by apply Hno].
  destruct (Hyes Hfree) as (a & Ha & ->).
  rewrite (setitem_same _ p true (Hmax p Hp Hfree)) in Ha.
  injection Ha as <-. apply set_starred_same.
Qed.

Lemma step2_idempotent_witness :
  step2 scenario_starred = Ok (scenario_starred, RInt 3).
Proof.
  apply (step2_idempotent scenario_solver scenario_starred (RInt 3)).
  - apply scenario_solver_wf.
  - reflexivity.
Defined.

(** X10: a zero of a real row that [_isIndependent] accepts is starred by
    [step2], and is then the only star of its row and of its column, on
    every well-formed solver whose stars sit on zeros (a new solver has no
    star). *)
Theorem step2_stars_independent (self self' : ReducedMunkres) (ret : retval)
    (pos : nat * nat) :
  wf_state self ->
  (forall r c, cell (starred self) r c = Some true ->
     cell (costMat self) r c = Some 0%Z) ->
  step2 self = Ok (self', ret) ->
  cell (costMat self) pos.1 pos.2 = Some 0%Z ->
  ~ is_virtual self pos.1 ->
  _isIndependent self pos = Ok true ->
  cell (starred self') pos.1 pos.2 = Some true /\ no_other_star self' pos.
Proof.
  intros Hwf Hzeros Hstep Hz Hreal Hind.
  assert (Hin : pos.1 < n self /\ pos.2 < m self).
  { destruct Hwf as ((Hsh & Hwfc) & _).
    apply (cell_Some_lt _ _ _ _ Hwfc) in Hz. by rewrite Hsh in Hz. }
  destruct Hin as [Hr Hc].
  destruct (isIndependent_spec self pos Hwf Hr Hc) as (b & Hb & Hiff).
  rewrite Hind in Hb. injection Hb as <-.
  destruct (proj1 Hiff eq_refl) as [Hv|[Hrow Hcol]]; [done|].
  destruct (step2_star_all self Hwf) as (s2 & Hall & Hstep').
  rewrite Hstep in Hstep'. injection Hstep' as -> ->.
  destruct (star_all_post _ _ _ Hwf (fun p => zero_cells_in_range self p Hwf)
              Hall) as (_ & _ & Hnew & Hmax).
  assert (Hon : forall r c, cell (starred s2) r c = Some true ->
                  cell (costMat self) r c = Some 0%Z).
  { intros r c Hrc. destruct (Hnew r c Hrc) as [H|H]; [by apply Hzeros|].
    by apply elem_of_zero_cells. }
  assert (Hfree : no_other_star s2 pos).
  { split.
    - intros j Hj Hs. apply (Hrow j Hj). by apply Hon.
    - intros i Hi Hs. apply (Hcol i Hi). by apply Hon. }
  split; [|done]. apply (Hmax pos); [|done].
  destruct pos as [r c]. by apply elem_of_zero_cells.
Qed.

Lemma diagonal_solver_wf : wf_state diagonal_solver.
Proof.
  apply (init_Ok_wf diagonal); [|reflexivity].
  split; [done|]. repeat constructor.
Qed.

Lemma step2_stars_independent_witness :
  cell (starred (set_starred diagonal_solver
                   (mk_ndarray (2, 2) [[true; false]; [false; true]])))
    0 0 = Some true /\
  no_other_star (set_starred diagonal_solver
                   (mk_ndarray (2, 2) [[true; false]; [false; true]])) (0, 0).
Proof.
  apply (step2_stars_independent diagonal_solver _ (RInt 3) (0, 0)).
  - apply diagonal_solver_wf.
  - intros r c H. simpl in H. by apply cell_np_full in H.
  - reflexivity.
  - reflexivity.
  - unfold is_virtual. simpl. lia.
  - reflexivity.
Defined.

(** ** More on step 3 *)

Lemma enum_rows_nil {A} (r : nat) (ll : list (list A)) :
  Forall (fun row => length row = 0) ll -> enum_rows r ll = [].
Proof.
  revert r. induction ll as [|row ll IH]; intros r Hall; simpl; [done|].
  apply Forall_cons in Hall as [Hrow Hall].
  apply nil_length_inv in Hrow as ->. simpl. by apply IH.
Qed.

(** X11: on a well-formed solver [step3] returns 4, changing nothing, only
    when the grid has no cell at all; on every grid with a row and a
    column it raises [ValueError], whatever the stars and the covers. *)
Theorem step3_only_on_empty_grid (self : ReducedMunkres) :
  wf_state self ->
  (1 <= n self -> 1 <= m self ->
     step3 self
     = Raise (ValueError "not enough values to unpack (expected 3)")) /\
  (n self = 0 \/ m self = 0 -> step3 self = Ok (self, RInt 4)).
Proof.
  intros (_ & (Hsh & Hlen & Hrows) & _). rewrite Hsh in Hlen, Hrows.
  simpl in Hlen, Hrows. unfold step3, ndenumerate_obj, ndenumerate. split.
  - intros Hn Hm.
    destruct (data (starred self)) as [|row ll]; [simpl in Hlen; lia|].
    apply Forall_cons in Hrows as [Hrow _].
    destruct row as [|b row]; [simpl in Hrow; lia|]. done.
  - intros [Hn|Hm].
    + rewrite Hn in Hlen. by apply nil_length_inv in Hlen as ->.
    + rewrite Hm in Hrows. by rewrite enum_rows_nil.
Qed.

Lemma step3_only_on_empty_grid_witness :
  (1 <= n scenario_covered -> 1 <= m scenario_covered ->
     step3 scenario_covered
     = Raise (ValueError "not enough values to unpack (expected 3)")) /\
  (n scenario_covered = 0 \/ m scenario_covered = 0 ->
     step3 scenario_covered = Ok (scenario_covered, RInt 4)).
Proof.
  apply (step3_only_on_empty_grid scenario_covered).
  destruct scenario_starred_wf as (Hc & Hs & Hp & Hr & Hl).
  unfold wf_state. simpl. tauto.
Defined.

(** ** More on step 4 *)

Lemma findUncovZero_Ok (self : ReducedMunkres) :
  wf_state self ->
  exists res, _findUncovZero self = Ok res /\
    (res = None -> forall r c, ~ uncovered_zero self r c) /\
    (forall p, res = Some p -> uncovered_zero self p.1 p.2).
Proof.
  intros ((Hsh & Hwf) & _ & _ & Hrc & Hcc).
  destruct (findUncovZero_loop_spec (ndenumerate (costMat self))
              (row_covered self) (col_covered self) None)
    as (res & Hres & Hcases).
  { intros p v Hin. apply elem_of_ndenumerate in Hin.
    apply (cell_Some_lt _ _ _ _ Hwf) in Hin. rewrite Hsh in Hin. simpl in Hin.
    lia. }
  exists res. split; [done|].
  destruct Hcases as [[-> Hnone]|(l1 & p & l2 & Hsplit & -> & Hpr & Hpc & _)].
  - split; [|done]. intros _ r c (Hz & Hr & Hc).
    apply (Hnone (r, c) 0%Z); [|done]. by apply elem_of_ndenumerate.
  - split; [done|]. intros q [= <-]. split; [|done].
    apply elem_of_ndenumerate. rewrite Hsplit.
    apply elem_of_app. right. by left.
Qed.

Lemma index_true_first (i : nat) (l : list bool) (k : nat) :
  first_true i l = Z.of_nat k -> index_true i l = Ok k.
Proof.
  revert i. induction l as [|b l IH]; intros i; simpl; [lia|].
  destruct b; [|apply IH]. intros Hk. apply Nat2Z.inj in Hk. by subst.
Qed.

Lemma step4_body_cases (self : ReducedMunkres) (step : Z) :
  wf_state self ->
  ((forall r c, ~ uncovered_zero self r c) /\
   step4_body self step = Ok (self, 6%Z, true)) \/
  (exists r c a, uncovered_zero self r c /\
     setitem (primed self) (r, c) true = Ok a /\
     (((forall j, cell (starred self) r j <> Some true) /\
       step4_body self step
       = Ok (set_z1 (set_primed self a) r c, 5%Z, true)) \/
      (exists k, cell (starred self) r k = Some true /\
         ((col_covered self !! k = Some false /\
           step4_body self step = Raise AssertionError) \/
          (col_covered self !! k = Some true /\
           step4_body self step
           = Ok (set_col_covered
                   (set_row_covered (set_primed self a)
                      (<[r := true]> (row_covered self)))
                   (<[k := false]> (col_covered self)), step, false)))))).
Proof.
  intros Hwf.
  destruct (findUncovZero_Ok self Hwf) as (res & Hres & Hnone & Hsome).
  unfold step4_body. rewrite Hres. simpl.
  destruct res as [[r c]|]; [|left; split; [by apply Hnone|done]].
  right. destruct (Hsome (r, c) eq_refl) as (Hz & Hr & Hc). simpl in *.
  destruct Hwf as ((Hshc & Hwfc) & (Hshs & Hwfs) & (Hshp & Hwfp) & Hrc & Hcc).
  destruct (cell_Some_lt _ _ _ _ Hwfc Hz) as [Hrn Hcm].
  rewrite Hshc in Hrn, Hcm. simpl in Hrn, Hcm.
  destruct (setitem_Ok (primed self) (r, c) true) as [a Ha];
    [done|by rewrite Hshp|by rewrite Hshp|].
  exists r, c, a. split; [done|]. split; [done|]. rewrite Ha. simpl.
  unfold _findStarInRow. simpl.
  destruct (getrow_Ok (starred self) r Hwfs) as (l & Hl & Hlen);
    [by rewrite Hshs|].
  rewrite Hshs in Hlen. simpl in Hlen. rewrite Hl. simpl.
  destruct (first_true_cases 0 l) as [[Hfirst Hall]|(k & Hk & Hlk & _)].
  - left. rewrite Hfirst. simpl. split; [|done].
    intros j. rewrite (getrow_cell _ _ _ Hl). apply Hall.
  - right. exists k. simpl in Hk. rewrite Hk.
    split; [by rewrite (getrow_cell _ _ _ Hl)|].
    destruct (Z.eqb_spec (Z.of_nat k) (-1)) as [Hneg|_]; [lia|].
    rewrite (index_true_first 0 l k Hk). simpl.
    assert (Hkm : k < m self).
    { rewrite <- Hlen. by eapply lookup_lt_Some. }
    destruct (lookup_lt_is_Some_2 (col_covered self) k) as [cc Hcck]; [lia|].
    unfold list_getitem, list_setitem. rewrite Hcck. simpl.
    destruct cc; simpl; [right|by left]. split; [done|].
    rewrite Hr. simpl. rewrite decide_True by lia. simpl.
    rewrite decide_True by lia. done.
Qed.

Lemma step4_frame_refl (self : ReducedMunkres) : step4_frame self self.
Proof. by repeat split. Qed.

Lemma step4_frame_trans (s1 s2 s3 : ReducedMunkres) :
  step4_frame s1 s2 -> step4_frame s2 s3 -> step4_frame s1 s3.
Proof.
  intros (Hn & Hm & Hc & Hs & Hk & Hr & Hp) (Hn' & Hm' & Hc' & Hs' & Hk' & Hr' & Hp').
  repeat split; try congruence.
  - intros i Hi. by apply Hr', Hr.
  - intros r c Hrc. by apply Hp', Hp.
Qed.

Lemma step4_body_step (self self1 : ReducedMunkres) (step step1 : Z)
    (done1 : bool) :
  wf_state self -> step4_body self step = Ok (self1, step1, done1) ->
  wf_state self1 /\ step4_frame self self1 /\
  (done1 = true ->
     (step1 = 6%Z /\ step4_exhausted self1) \/
     (step1 = 5%Z /\ step4_found self1)).
Proof.
  intros Hwf Hbody.
  destruct (step4_body_cases self step Hwf)
    as [[Hnone Hb]|(r & c & a & Hz & Ha &
         [[Hrow Hb]|(k & Hk & [[Hcc Hb]|[Hcc Hb]])])];
    rewrite Hb in Hbody; [| | done |]; injection Hbody as <- <- <-.
  - split; [done|]. split; [apply step4_frame_refl|]. intros _. by left.
  - destruct Hwf as (Hc & Hs & (Hshp & Hwfp) & Hrc & Hcl).
    assert (Hcell : cell a r c = Some true).
    { rewrite (setitem_cell _ _ _ _ _ _ Ha). by rewrite decide_True. }
    split; [|split].
    + unfold wf_state. simpl.
      rewrite (setitem_shape _ _ _ _ Ha).
      pose proof (setitem_wf _ _ _ _ Hwfp Ha). tauto.
    + repeat split; try done. simpl. intros r' c' H.
      rewrite (setitem_cell _ _ _ _ _ _ Ha). by case_decide.
    + intros _. right. split; [done|]. exists r, c.
      split; [done|]. split; [done|]. split; [exact Hz|].
      split; [exact Hcell|exact Hrow].
  - destruct Hwf as (Hc & Hs & (Hshp & Hwfp) & Hrc & Hcl).
    split; [|split; [|done]].
    + unfold wf_state. simpl. rewrite !length_insert.
      rewrite (setitem_shape _ _ _ _ Ha).
      pose proof (setitem_wf _ _ _ _ Hwfp Ha). tauto.
    + repeat split; try done; simpl.
      * intros i Hi. destruct (decide (i = r)) as [->|Hne].
        -- rewrite list_lookup_insert_eq; [done|]. by eapply lookup_lt_Some.
        -- by rewrite list_lookup_insert_ne.
      * intros r' c' H. rewrite (setitem_cell _ _ _ _ _ _ Ha).
        by case_decide.
Qed.

Lemma step4_while_done (fuel : nat) (self : ReducedMunkres) (step : Z) :
  step4_while fuel self step true = Some (Ok (self, step)).
Proof. by destruct fuel. Qed.

Lemma step4_while_post (fuel : nat) (self self' : ReducedMunkres)
    (step step' : Z) :
  wf_state self ->
  step4_while fuel self step false = Some (Ok (self', step')) ->
  wf_state self' /\ step4_frame self self' /\
  ((step' = 6%Z /\ step4_exhausted self') \/
   (step' = 5%Z /\ step4_found self')).
Proof.
  revert self step. induction fuel as [|fuel IH]; intros self step Hwf;
    [done|]. simpl.
  destruct (step4_body self step) as [[[self1 step1] done1]|] eqn:Hbody;
    [|done].
  destruct (step4_body_step _ _ _ _ _ Hwf Hbody) as (Hwf1 & Hframe1 & Hdone).
  destruct done1.
  - rewrite step4_while_done. intros [= <- <-]. by split; [|split; [|apply Hdone]].
  - intros Hloop. destruct (IH self1 step1 Hwf1 Hloop) as (Hwf' & Hframe & Hpost).
    split; [done|]. split; [by eapply step4_frame_trans|done].
Qed.

(** X12: when [step4] returns on a well-formed solver it returns [None],
    the solver is still well formed, the cost matrix and the stars are
    untouched, covered rows are still covered and primes still primed; and
    either no zero is left with its row and its column uncovered, or the
    recorded Z1 is such a zero, primed, in a row without a star. *)
Theorem step4_postcondition (self self' : ReducedMunkres) (ret : retval) :
  wf_state self -> step4 self = Some (Ok (self', ret)) ->
  ret = RNone /\ wf_state self' /\ step4_frame self self' /\
  (step4_exhausted self' \/ step4_found self').
Proof.
  intros Hwf. unfold step4.
  destruct (step4_while _ _ _ _) as [[[s1 step1]|e]|] eqn:Hloop; [|done|done].
  intros [= <- <-]. split; [done|].
  destruct (step4_while_post _ _ _ _ _ Hwf Hloop) as (Hwf' & Hframe & Hpost).
  split; [done|]. split; [done|]. destruct Hpost as [[_ ?]|[_ ?]]; tauto.
Qed.

Lemma step4_postcondition_witness :
  RNone = RNone /\ wf_state (set_z1 scenario_primed 2 2) /\
  step4_frame scenario_solver (set_z1 scenario_primed 2 2) /\
  (step4_exhausted (set_z1 scenario_primed 2 2) \/
   step4_found (set_z1 scenario_primed 2 2)).
Proof.
  apply (step4_postcondition scenario_solver (set_z1 scenario_primed 2 2)).
  - apply scenario_solver_wf.
  - reflexivity.
Defined.


Lemma step4_body_safe (self : ReducedMunkres) (step : Z) :
  wf_state self -> covers_consistent self ->
  exists self1 step1 done1,
    step4_body self step = Ok (self1, step1, done1) /\
    (done1 = false -> covers_consistent self1).
Proof.
  intros Hwf [Hcol Hcons].
  destruct (step4_body_cases self step Hwf)
    as [[_ Hb]|(r & c & a & (_ & Hr & _) & _ &
         [[_ Hb]|(k & Hk & [[Hcc Hb]|[Hcc Hb]])])].
  - eexists _, _, _. by split.
  - eexists _, _, _. by split.
  - specialize (Hcons r k Hk Hr). congruence.
  - eexists _, _, _. split; [done|]. intros _. split; simpl; [done|].
    intros r' k' Hk' Hr'.
    assert (Hne : r' <> r).
    { intros ->. rewrite list_lookup_insert_eq in Hr'; [done|].
      by eapply lookup_lt_Some. }
    rewrite list_lookup_insert_ne in Hr' by done.
    assert (Hkne : k' <> k).
    { intros ->. apply Hne. by apply (Hcol k). }
    rewrite list_lookup_insert_ne by done. by apply (Hcons r' k').
Qed.

Lemma step4_while_safe (fuel : nat) (self : ReducedMunkres) (step : Z) :
  wf_state self -> covers_consistent self ->
  count_false (row_covered self) < fuel ->
  exists self' step', step4_while fuel self step false
                      = Some (Ok (self', step')).
Proof.
  revert self step. induction fuel as [|fuel IH];
    intros self step Hwf Hcons Hlt; [lia|]. simpl.
  destruct (step4_body_safe self step Hwf Hcons)
    as (self1 & step1 & done1 & Hbody & Hnext).
  rewrite Hbody. destruct done1.
  - rewrite step4_while_done. by eexists _, _.
  - destruct (step4_body_step _ _ _ _ _ Hwf Hbody) as (Hwf1 & _).
    apply IH; [done|by apply Hnext|].
    apply step4_body_covers in Hbody as (r & Hr & ->).
    pose proof (count_false_cover _ _ Hr). lia.
Qed.

Lemma scenario_covered_wf : wf_state scenario_covered.
Proof.
  destruct scenario_starred_wf as (Hc & Hs & Hp & Hr & Hl).
  unfold wf_state. simpl. tauto.
Qed.



Lemma step4_while_more (fuel extra : nat) (self : ReducedMunkres) (step : Z)
    (done : bool) (res : result (ReducedMunkres * Z)) :
  step4_while fuel self step done = Some res ->
  step4_while (fuel + extra) self step done = Some res.
Proof.
  revert self step done. induction fuel as [|fuel IH];
    intros self step done; simpl.
  - destruct done; [|done]. by rewrite step4_while_done.
  - destruct done; [done|].
    destruct (step4_body self step) as [[[self1 step1] done1]|]; [|done].
    apply IH.
Qed.

(** X14: the loop of [step4] always ends: on every solver, whatever its
    shape, one turn more than it has uncovered rows is enough, and more
    turns change nothing of the outcome. *)
Theorem step4_terminates (self : ReducedMunkres) (step : Z) :
  step4 self <> None /\
  exists res, forall fuel, count_false (row_covered self) < fuel ->
    step4_while fuel self step false = Some res.
Proof.
  split; [apply step4_total|].
  destruct (step4_while (S (count_false (row_covered self))) self step false)
    as [res|] eqn:Hloop.
  - exists res. intros fuel Hlt.
    replace fuel with (S (count_false (row_covered self))
                       + (fuel - S (count_false (row_covered self))))
      by lia.
    by apply step4_while_more.
  - exfalso. revert Hloop. apply step4_while_total. lia.
Qed.

(** ** More on step 1, [reset] and construction *)

(** X15: an array without a row passes construction, whatever its number of
    columns, and [step1] then raises [ValueError]: the minimum of an empty
    column does not exist. *)
Theorem step1_without_rows (a : ndarray Z) :
  wf_ndarray a -> (shape a).1 = 0 ->
  exists self, __init__ a = Ok self /\ wf_state self /\
    step1 self = Raise (ValueError "zero-size array to reduction operation minimum which has no identity").
Proof.
  intros Hwf Hn.
  assert (Hdata : data a = []).
  { destruct Hwf as [Hlen _]. rewrite Hn in Hlen.
    by apply nil_length_inv in Hlen. }
  destruct (__init__ a) as [self|e] eqn:Hinit.
  - exists self. split; [done|]. split; [by eapply init_Ok_wf|].
    revert Hinit. unfold __init__. destruct (shape a) as [n0 m0]. simpl.
    destruct (_ >=? _)%Z; [|done]. intros [= <-]. unfold step1. simpl.
    unfold np_min_axis0. by rewrite Hdata.
  - exfalso. revert Hinit. unfold __init__.
    destruct (shape a) as [n0 m0]. simpl in *. subst n0.
    destruct (Z.geb_spec (Z.of_nat m0) (Z.of_nat 0 - 1)); [done|lia].
Qed.

Lemma step1_without_rows_witness :
  exists self, __init__ no_rows = Ok self /\ wf_state self /\
    step1 self = Raise (ValueError "zero-size array to reduction operation minimum which has no identity").
Proof.
  apply (step1_without_rows no_rows).
  - split; [done|]. constructor.
  - reflexivity.
Defined.



Lemma reset_wf (self : ReducedMunkres) : wf_state self -> wf_state (reset self).
Proof.
  intros ((Hshc & Hwfc) & Hs & _). unfold wf_state, reset. simpl.
  rewrite !length_fmap, !length_seq, Hshc.
  pose proof (wf_np_full (n self, m self) false). tauto.
Qed.

(** X17: [reset] keeps a well-formed solver well formed, a second [reset]
    changes nothing, and after it every zero of the cost matrix has its row
    and its column uncovered. *)
Theorem reset_uncovers_every_zero (self : ReducedMunkres) :
  wf_state self ->
  wf_state (reset self) /\
  reset (reset self) = reset self /\
  (forall r c, uncovered_zero (reset self) r c <->
     cell (costMat self) r c = Some 0%Z).
Proof.
  intros Hwf. split; [by apply reset_wf|]. split; [done|].
  intros r c. unfold uncovered_zero, reset. simpl.
  rewrite !fmap_const_seq. split; [by intros (? & _)|]. intros Hz.
  destruct Hwf as ((Hshc & Hwfc) & _).
  destruct (cell_Some_lt _ _ _ _ Hwfc Hz) as [Hr Hc]. rewrite Hshc in Hr, Hc.
  split; [done|]. by rewrite !lookup_replicate_2.
Qed.

Lemma reset_uncovers_every_zero_witness :
  wf_state (reset scenario_covered) /\
  reset (reset scenario_covered) = reset scenario_covered /\
  (forall r c, uncovered_zero (reset scenario_covered) r c <->
     cell (costMat scenario_covered) r c = Some 0%Z).
Proof.
  apply (reset_uncovers_every_zero scenario_covered).
  apply scenario_covered_wf.
Defined.

(** X18: the solver [__init__] returns for a rectangular array is well
    formed and holds the array; it has no star, no prime, no mark and no
    cover; every zero of the array is uncovered; and [step4] on it raises
    nothing. *)
Theorem init_fresh_solver (a : ndarray Z) (self : ReducedMunkres) :
  wf_ndarray a -> __init__ a = Ok self ->
  wf_state self /\ wf_marked self /\ costMat self = a /\
  (forall r c, cell (starred self) r c <> Some true) /\
  (forall r c, cell (primed self) r c <> Some true) /\
  (forall r c, cell (marked self) r c <> Some true) /\
  (forall i, row_covered self !! i <> Some true) /\
  (forall j, col_covered self !! j <> Some true) /\
  (forall r c, uncovered_zero self r c <-> cell a r c = Some 0%Z) /\
  exists self', step4 self = Some (Ok (self', RNone)).
Proof.
  intros Hwf Hinit. pose proof (init_Ok_wf _ _ Hwf Hinit) as Hwfs.
  assert (Hfields : costMat self = a /\
            starred self = np_full (shape a) false /\
            primed self = np_full (shape a) false /\
            marked self = np_full (shape a) false /\
            row_covered self = replicate (n self) false /\
            col_covered self = replicate (m self) false /\
            shape a = (n self, m self)).
  { revert Hinit. unfold __init__. destruct (shape a) as [n0 m0]. simpl.
    destruct (_ >=? _)%Z; [|done]. intros [= <-]. simpl.
    by rewrite !fmap_const_seq. }
  destruct Hfields as (Hc & Hs & Hp & Hk & Hrc & Hcc & Hsh).
  assert (Hstars : forall r c, cell (starred self) r c <> Some true).
  { intros r c H. rewrite Hs in H. by apply cell_np_full in H. }
  split; [done|]. split.
  { split; rewrite Hk; [done|apply wf_np_full]. }
  split; [done|]. split; [done|]. split.
  { intros r c H. rewrite Hp in H. by apply cell_np_full in H. }
  split.
  { intros r c H. rewrite Hk in H. by apply cell_np_full in H. }
  split.
  { intros i H. rewrite Hrc in H. by apply lookup_replicate in H as [? _]. }
  split.
  { intros j H. rewrite Hcc in H. by apply lookup_replicate in H as [? _]. }
  split.
  - intros r c. unfold uncovered_zero. rewrite Hc. split; [by intros (? & _)|].
    intros Hz. destruct (cell_Some_lt _ _ _ _ Hwf Hz) as [Hr Hcl].
    rewrite Hsh in Hr, Hcl. split; [done|].
    rewrite Hrc, Hcc. by rewrite !lookup_replicate_2.
  - unfold step4.
    destruct (step4_while_safe (S (length (row_covered self))) self 0%Z Hwfs)
      as (self' & step' & Hloop).
    + split; [intros c r1 r2 H|intros r k H]; by apply Hstars in H.
    + pose proof (count_false_le (row_covered self)). lia.
    + rewrite Hloop. by exists self'.
Qed.

Lemma init_fresh_solver_witness :
  wf_state scenario_solver /\ wf_marked scenario_solver /\
  costMat scenario_solver = scenario /\
  (forall r c, cell (starred scenario_solver) r c <> Some true) /\
  (forall r c, cell (primed scenario_solver) r c <> Some true) /\
  (forall r c, cell (marked scenario_solver) r c <> Some true) /\
  (forall i, row_covered scenario_solver !! i <> Some true) /\
  (forall j, col_covered scenario_solver !! j <> Some true) /\
  (forall r c, uncovered_zero scenario_solver r c <->
     cell scenario r c = Some 0%Z) /\
  exists self', step4 scenario_solver = Some (Ok (self', RNone)).
Proof.
  apply (init_fresh_solver scenario scenario_solver).
  - apply scenario_wf.
  - reflexivity.
Defined.

(** ** [_isIndependent] at the bounds *)

Lemma isIndependent_exn (self : ReducedMunkres) (pos : nat * nat) (e : exn) :
  _isIndependent self pos = Raise e -> e = IndexError.
Proof.
  unfold _isIndependent. destruct (_ =? _)%Z; [done|].
  assert (Htest : forall r c e',
            (v ← getitem (costMat self) (r, c); Ok (v =? 0)%Z) = Raise e' ->
            e' = IndexError).
  { intros r c e'. destruct (getitem (costMat self) (r, c)) eqn:Hg; [done|].
    simpl. intros [= <-]. by eapply getitem_exn. }
  destruct (scan_other pos.2 _ _ _) as [b1|e1] eqn:H1; simpl.
  - intros H2. eapply scan_other_exn; [|exact H2].
    intros k e'. apply Htest.
  - intros [= <-]. eapply scan_other_exn; [|exact H1].
    intros k e'. apply Htest.
Qed.

(** X19: [_isIndependent] accepts every position of the virtual row without
    reading the matrix, a column outside the grid included.  At a position
    of another row that lies outside a grid of two rows and two columns at
    least it raises [IndexError]; and it raises nothing else. *)
Theorem isIndependent_bounds (self : ReducedMunkres) (pos : nat * nat) :
  wf_state self ->
  (is_virtual self pos.1 -> _isIndependent self pos = Ok true) /\
  (~ is_virtual self pos.1 -> ~ (pos.1 < n self /\ pos.2 < m self) ->
   2 <= n self -> 2 <= m self ->
     _isIndependent self pos = Raise IndexError) /\
  (forall e, _isIndependent self pos = Raise e -> e = IndexError).
Proof.
  intros ((Hsh & Hwfc) & _). split; [|split].
  - unfold is_virtual, _isIndependent. intros ->. by rewrite Z.eqb_refl.
  - unfold is_virtual, _isIndependent. intros Hreal Hout Hn Hm.
    destruct (Z.eqb_spec (Z.of_nat pos.1) (Z.of_nat (n self) - 1));
      [done|].
    assert (Hraise : forall r c, ~ (r < n self /\ c < m self) ->
              (v ← getitem (costMat self) (r, c); Ok (v =? 0)%Z)
              = Raise IndexError).
    { intros r c Hrc. unfold getitem. simpl.
      rewrite cell_None_ge; [done|done|]. by rewrite Hsh. }
    destruct (decide (pos.1 < n self)) as [Hr|Hr].
    + rewrite (scan_other_spec _ _ (cell_zero (costMat self) pos.1));
        last first.
      { intros j Hj _. apply elem_of_seq in Hj.
        apply (getitem_cell_zero _ (n self, m self)); simpl;
          [done|done|lia|lia]. }
      simpl. apply scan_other_Raise.
      * intros i Hi Hne. apply Hraise. lia.
      * exists (if decide (pos.1 = 0) then 1 else 0).
        split; [apply elem_of_seq|]; case_decide; lia.
    + rewrite (scan_other_Raise _ _ _ _ IndexError); [done| |].
      * intros j Hj Hne. apply Hraise. lia.
      * exists (if decide (pos.2 = 0) then 1 else 0).
        split; [apply elem_of_seq|]; case_decide; lia.
  - intros e. apply isIndependent_exn.
Qed.

Lemma isIndependent_bounds_witness :
  (is_virtual scenario_solver 2 ->
     _isIndependent scenario_solver (2, 7) = Ok true) /\
  (~ is_virtual scenario_solver 2 ->
   ~ (2 < n scenario_solver /\ 7 < m scenario_solver) ->
   2 <= n scenario_solver -> 2 <= m scenario_solver ->
     _isIndependent scenario_solver (2, 7) = Raise IndexError) /\
  (forall e, _isIndependent scenario_solver (2, 7) = Raise e ->
     e = IndexError).
Proof.
  apply (isIndependent_bounds scenario_solver (2, 7)).
  apply scenario_solver_wf.
Defined.
